(** * Book2Slide: the request/response contract, JSON recovery and view state

    A shallow embedding of [src/services/geminiService.ts] (prompt builder,
    generation client, response recoverer) and of [src/App.tsx] (the view
    state controller and the PDF export of the slide viewer), with the
    properties of the specification stated and proved over it.

    Strings are JavaScript strings: finite sequences of UTF-16 code units.
    Exceptions are explicit ([result]); the console, the network and the PDF
    writer are recorded as a trace of events. *)

From Stdlib Require Import String Ascii ZArith NArith Lia Bool List.
Import ListNotations.

(* ================================================================== *)
(** * JavaScript strings *)
(* ================================================================== *)

Module Js.

(** A string is its sequence of UTF-16 code units. *)
Definition jsstring : Type := list N.

(** An ASCII literal of the source, as code units. *)
Definition lit (s : string) : jsstring :=
  map N_of_ascii (list_ascii_of_string s).

(** A piece of a template literal.  A string of this file cannot hold a
    double quote, so the double quotes of the template are written as
    backticks, which an unescaped template literal cannot contain. *)
Definition tpl (s : string) : jsstring :=
  map (fun c => if (c =? 96)%N then 34%N else c) (lit s).

(** [lines.join(sep)] *)
Fixpoint join (sep : jsstring) (lines : list jsstring) : jsstring :=
  match lines with
  | [] => []
  | [l] => l
  | l :: rest => l ++ sep ++ join sep rest
  end.

Definition eqb (s t : jsstring) : bool :=
  if list_eq_dec N.eq_dec s t then true else false.

Definition lbrace : N := 123.      (* the opening brace *)
Definition rbrace : N := 125.      (* the closing brace *)
Definition newline : N := 10.

(** [WhiteSpace] and [LineTerminator] of ECMAScript: what [trim] strips and
    what the regular-expression class [\s] matches. *)
Definition is_whitespace (c : N) : bool :=
  (((9 <=? c) && (c <=? 13))          (* TAB LF VT FF CR *)
  || (c =? 32) || (c =? 160)         (* SP NBSP *)
  || (c =? 5760)                     (* U+1680 *)
  || ((8192 <=? c) && (c <=? 8202))  (* U+2000 .. U+200A *)
  || (c =? 8232) || (c =? 8233)      (* LS PS *)
  || (c =? 8239) || (c =? 8287)      (* U+202F U+205F *)
  || (c =? 12288) || (c =? 65279))%N. (* U+3000 U+FEFF *)

Fixpoint startsWith (s pat : jsstring) {struct pat} : bool :=
  match pat, s with
  | [], _ => true
  | _ :: _, [] => false
  | p :: pat', c :: s' => (p =? c) && startsWith s' pat'
  end%N.

(** [s.indexOf(pat)]: the least position where [pat] occurs, [-1] if none. *)
Fixpoint indexOf_from (i : Z) (s pat : jsstring) : Z :=
  if startsWith s pat then i
  else match s with
       | [] => -1
       | _ :: s' => indexOf_from (i + 1) s' pat
       end%Z.

Definition indexOf (s pat : jsstring) : Z := indexOf_from 0 s pat.

(** [s.lastIndexOf(pat)]: the greatest such position, [-1] if none. *)
Fixpoint lastIndexOf_from (i : Z) (s pat : jsstring) : Z :=
  match s with
  | [] => if startsWith [] pat then i else -1
  | _ :: s' =>
      let later := lastIndexOf_from (i + 1) s' pat in
      if later =? -1 then (if startsWith s pat then i else -1) else later
  end%Z.

Definition lastIndexOf (s pat : jsstring) : Z := lastIndexOf_from 0 s pat.

(** [s.substring(start, end)]: both indices are clamped to [0, length] and
    swapped when out of order. *)
Definition substring (s : jsstring) (start end_ : Z) : jsstring :=
  let len := Z.of_nat (length s) in
  let a := Z.min (Z.max start 0) len in
  let b := Z.min (Z.max end_ 0) len in
  let from := Z.min a b in
  let to := Z.max a b in
  firstn (Z.to_nat (to - from)) (skipn (Z.to_nat from) s).

(** [s.replace(/pat/g, rep)] for a pattern that is a non-empty literal
    sequence: the matches are found left to right and do not overlap.
    [skip] counts the code units of the current match still to be dropped. *)
Fixpoint replace_literal_from (skip : nat) (pat rep s : jsstring) : jsstring :=
  match s with
  | [] => []
  | c :: s' =>
      match skip with
      | S k => replace_literal_from k pat rep s'
      | O =>
          if startsWith s pat
          then rep ++ replace_literal_from (length pat - 1) pat rep s'
          else c :: replace_literal_from 0 pat rep s'
      end
  end.

Definition replace_literal (pat rep s : jsstring) : jsstring :=
  replace_literal_from 0 pat rep s.

Fixpoint trimStart (s : jsstring) : jsstring :=
  match s with
  | c :: s' => if is_whitespace c then trimStart s' else s
  | [] => []
  end.

Definition trimEnd (s : jsstring) : jsstring := rev (trimStart (rev s)).

(** [s.trim()] *)
Definition trim (s : jsstring) : jsstring := trimEnd (trimStart s).

(** [s.replace(/\s+/g, rep)]: the pattern is greedy, so a match that starts at
    a whitespace code unit runs to the end of the whitespace run; [in_run]
    says that the scan is inside a match already replaced. *)
Fixpoint replace_ws_runs_from (in_run : bool) (rep s : jsstring) : jsstring :=
  match s with
  | [] => []
  | c :: s' =>
      if is_whitespace c
      then (if in_run then [] else rep) ++ replace_ws_runs_from true rep s'
      else c :: replace_ws_runs_from false rep s'
  end.

Definition replace_ws_runs (rep s : jsstring) : jsstring :=
  replace_ws_runs_from false rep s.

End Js.
Import Js.

(* ================================================================== *)
(** * Values, exceptions and effects *)
(* ================================================================== *)

#[local] Set Warnings "-register-all".

(** The values [JSON.parse] can return.  A number is kept as its decimal
    literal: no property of this development looks inside one.  An array is
    an object too and can carry named properties beside its elements. *)
Inductive JsValue : Type :=
| JNull
| JBool (b : bool)
| JNumber (literal : jsstring)
| JString (s : jsstring)
| JArray (elems : list JsValue) (props : list (jsstring * JsValue))
| JObject (props : list (jsstring * JsValue)).

(** What a [throw] carries: an [Error] (or a subclass, told by [name]), or
    any other value. *)
Inductive Thrown : Type :=
| JsError (name message : jsstring)
| ThrownValue (v : JsValue).

Inductive result (A : Type) : Type :=
| Ok (a : A)
| Throw (e : Thrown).
Arguments Ok {A} a.
Arguments Throw {A} e.

(** Own properties in insertion order; writing an existing key keeps its
    place. *)
Fixpoint get_field (k : jsstring) (props : list (jsstring * JsValue))
  : option JsValue :=
  match props with
  | [] => None
  | (k', v) :: rest => if Js.eqb k k' then Some v else get_field k rest
  end.

Fixpoint set_field (k : jsstring) (v : JsValue)
  (props : list (jsstring * JsValue)) : list (jsstring * JsValue) :=
  match props with
  | [] => [(k, v)]
  | (k', v') :: rest =>
      if Js.eqb k k' then (k, v) :: rest else (k', v') :: set_field k v rest
  end.

(** [value.name] for a name that is neither an array index nor [length]:
    [None] is [undefined]. *)
Definition get_named (value : JsValue) (name : jsstring) : option JsValue :=
  match value with
  | JObject props => get_field name props
  | JArray _ props => get_field name props
  | _ => None
  end.

(** ** The generative API: request and response *)

Record GenerateContentConfig : Type := {
  tools_googleSearch : bool;       (* [tools: [{ googleSearch: {} }]] *)
  generationConfig_temperature : jsstring   (* the literal of the source *)
}.

Record GenerateContentParameters : Type := {
  model : jsstring;
  contents : jsstring;
  config : GenerateContentConfig
}.

(** Every level of the response is optional, as the [?.] chain of the
    client reads it. *)
Record GroundingChunkWeb : Type := { uri : option jsstring }.
Record GroundingChunk : Type := { web : option GroundingChunkWeb }.
Record GroundingMetadata : Type := {
  groundingChunks : option (list GroundingChunk)
}.
Record Candidate : Type := { groundingMetadata : option GroundingMetadata }.
Record GenerateContentResponse : Type := {
  text : option jsstring;
  candidates : option (list Candidate)
}.

(** ** Effects *)

(** What the program does to the outside, in order. *)
Inductive Event : Type :=
| NetGenerateContent (request : GenerateContentParameters)
| ConsoleError (label : jsstring) (error : Thrown)
| WindowAlert (message : jsstring)
| PdfNew (width height : N)
| PdfAddPage
| PdfAddImage (imgData : jsstring) (width height : N)
| PdfSave (filename : jsstring).

(** A computation leaves a trace and returns or throws. *)
Definition Eff (A : Type) : Type := (list Event * result A)%type.

Definition ret {A} (a : A) : Eff A := ([], Ok a).
Definition throw {A} (e : Thrown) : Eff A := ([], Throw e).
Definition emit (ev : Event) : Eff unit := ([ev], Ok tt).
Definition lift {A} (r : result A) : Eff A := ([], r).

Definition bind {A B} (m : Eff A) (k : A -> Eff B) : Eff B :=
  match m with
  | (tr, Ok a) => let (tr', r) := k a in (tr ++ tr', r)
  | (tr, Throw e) => (tr, Throw e)
  end.

(** [try { m } catch (e) { handler e }] *)
Definition try_catch {A} (m : Eff A) (handler : Thrown -> Eff A) : Eff A :=
  match m with
  | (tr, Throw e) => let (tr', r) := handler e in (tr ++ tr', r)
  | (tr, Ok a) => (tr, Ok a)
  end.

Notation "x <- m ;; k" := (bind m (fun x => k))
  (at level 61, m at next level, right associativity).
Notation "m ;;; k" := (bind m (fun _ => k))
  (at level 61, right associativity).

Definition trace {A} (m : Eff A) : list Event := fst m.
Definition outcome {A} (m : Eff A) : result A := snd m.

(** The two facilities the service takes from its host: the SDK call (the
    awaited promise resolves or rejects) and the built-in JSON parser (which
    returns or throws a [SyntaxError]). *)
Class Host : Type := {
  generateContent : GenerateContentParameters -> result GenerateContentResponse;
  JSON_parse : jsstring -> result JsValue
}.

(* ================================================================== *)
(** * services/geminiService.ts *)
(* ================================================================== *)

Module GeminiService.

(** The lines of the prompt template literal, with its two slots. *)
Definition prompt_lines (title author : jsstring) : list jsstring :=
  [ [];
    tpl "  Act as a world-class literary critic and expert analyst. I need a deep, high-level analysis of the book `" ++ title ++ tpl "` by `" ++ author ++ tpl "`, suitable for a professional lecture or slide deck.";
    tpl "  ";
    tpl "  OBJECTIVE:";
    tpl "  Do NOT provide a generic, surface-level summary. Your output must match the depth of a university-level study guide. ";
    tpl "  You must identify the author's specific coined terms, their central philosophical or narrative thesis, and the structural evolution of their argument.";
    [];
    tpl "  TOOLS:";
    tpl "  Use Google Search to find high-quality critiques, academic analyses, and the specific vocabulary used by the author.";
    [];
    tpl "  JSON STRUCTURE & CONTENT REQUIREMENTS:";
    tpl "  1. `summary` (THE CENTRAL THESIS):";
    tpl "     - For Non-Fiction: What is the core paradigm shift or theory proposed? (e.g., `From discipline to flexibility,` `The end of history`).";
    tpl "     - For Fiction: What is the central thematic conflict or philosophical question?";
    tpl "     - Length: A substantial, analytical paragraph (approx 130-160 words).";
    tpl "  ";
    tpl "  2. `keyConcepts` (DISTINCTIVE TERMINOLOGY):";
    tpl "     - Identify 4 specific concepts, archetypes, or terms COINED or heavily used by the author (e.g., `The Third Woman,` `Antifragility,` `Doublethink,` `Liquid Modernity`).";
    tpl "     - Avoid generic words like `Love` or `War` unless defined in a unique way.";
    tpl "     - Definition: Explain the specific nuance of the term in the context of the book.";
    [];
    tpl "  3. `plotArc` (STRUCTURAL EVOLUTION):";
    tpl "     - For Non-Fiction: Track the logical progression of the argument (Premise -> Evidence -> Counter-point -> Conclusion).";
    tpl "     - For Fiction: Track the narrative arc.";
    tpl "  ";
    tpl "  4. `takeaways` (CRITICAL CONCLUSION):";
    tpl "     - What is the final diagnosis? Is it optimistic, pessimistic, or neutral?";
    tpl "     - What is the `Call to Action` or the `Map` the author provides?";
    [];
    tpl "  OUTPUT FORMAT:";
    tpl "  Return ONLY a valid JSON object with this exact structure:";
    tpl "  {";
    tpl "    `title`: `Exact Book Title`,";
    tpl "    `author`: `Author Name`,";
    tpl "    `publicationYear`: `YYYY`,";
    tpl "    `genre`: `Specific Genre (e.g., 'Sociological Essay', 'Dystopian Fiction')`,";
    tpl "    `tagline`: `A sophisticated, intellectual hook (5-10 words)`,";
    tpl "    `summary`: `The deep analysis/central thesis paragraph.`,";
    tpl "    `targetAudience`: `Specific psychographic (e.g. 'Post-structuralists', 'Entrepreneurs', 'Historians')`,";
    tpl "    `characters`: [";
    tpl "      { `name`: `Name/Archetype`, `role`: `Role`, `description`: `Analysis of their function`, `icon`: `" ++ [55357; 56420] ++ tpl "` }";
    tpl "    ],";
    tpl "    `keyConcepts`: [";
    tpl "      { `term`: `Specific Term 1`, `definition`: `Deep definition...`, `icon`: `" ++ [55357; 56481] ++ tpl "` },";
    tpl "      { `term`: `Specific Term 2`, `definition`: `Deep definition...`, `icon`: `" ++ [9889] ++ tpl "` },";
    tpl "      { `term`: `Specific Term 3`, `definition`: `Deep definition...`, `icon`: `" ++ [55358; 56800] ++ tpl "` },";
    tpl "      { `term`: `Specific Term 4`, `definition`: `Deep definition...`, `icon`: `" ++ [55357; 56385; 65039] ++ tpl "` }";
    tpl "    ],";
    tpl "    `plotArc`: [";
    tpl "      { `stage`: `Foundation/Beginning`, `description`: `The starting premise or situation.` },";
    tpl "      { `stage`: `Development/Inciting`, `description`: `The complication or expansion of the argument.` },";
    tpl "      { `stage`: `Climax/Crux`, `description`: `The peak of the argument or conflict.` },";
    tpl "      { `stage`: `Resolution/Synthesis`, `description`: `The final synthesis or conclusion.` }";
    tpl "    ],";
    tpl "    `themes`: [";
    tpl "      { `name`: `Theme Name`, `description`: `Explanation`, `color`: `#FF5733` }";
    tpl "    ],";
    tpl "    `keyQuote`: `The most famous or representative quote from the text.`,";
    tpl "    `takeaways`: [";
    tpl "      `Critical Insight 1`,";
    tpl "      `Critical Insight 2`,";
    tpl "      `Critical Insight 3`";
    tpl "    ]";
    tpl "  }";
    tpl "  " ]%N.

Definition prompt (title author : jsstring) : jsstring :=
  join [newline] (prompt_lines title author).

(** [value || fallback] on an optional string: [undefined] and the empty
    string are falsy. *)
Definition or_else (value : option jsstring) (fallback : jsstring) : jsstring :=
  match value with
  | Some (c :: s) => c :: s
  | Some [] | None => fallback
  end.

(** [response.candidates?.[0]?.groundingMetadata?.groundingChunks || []] *)
Definition groundings_of (response : GenerateContentResponse)
  : list GroundingChunk :=
  match candidates response with
  | Some (first :: _) =>
      match groundingMetadata first with
      | Some meta =>
          match groundingChunks meta with
          | Some chunks => chunks
          | None => []
          end
      | None => []
      end
  | Some [] | None => []
  end.

(** [chunk.web?.uri] *)
Definition chunk_uri (chunk : GroundingChunk) : option jsstring :=
  match web chunk with
  | Some w => uri w
  | None => None
  end.

(** [.filter((uri): uri is string => !!uri)] *)
Fixpoint filter_truthy (uris : list (option jsstring)) : list jsstring :=
  match uris with
  | [] => []
  | Some (c :: s) :: rest => (c :: s) :: filter_truthy rest
  | (Some [] | None) :: rest => filter_truthy rest
  end.

Definition sources_of (response : GenerateContentResponse) : list jsstring :=
  filter_truthy (map chunk_uri (groundings_of response)).

(** The robust JSON extraction: the value of [cleanJson] when it is parsed. *)
Definition cleanJson (text : jsstring) : jsstring :=
  let firstBrace := indexOf text (lit "{") in
  let lastBrace := lastIndexOf text (lit "}") in
  if (negb (firstBrace =? -1) && negb (lastBrace =? -1)
      && (lastBrace >? firstBrace))%Z
  then substring text firstBrace (lastBrace + 1)
  else trim (replace_literal (lit "```") []
               (replace_literal (lit "```json") [] text)).

(** [data.sources = sources].  The module is strict-mode code, so the
    assignment throws a [TypeError] on a primitive (and on [null] in any
    mode); on an object or an array it writes the property. *)
Definition assign_sources (data : JsValue) (sources : list jsstring)
  : result JsValue :=
  let value := JArray (map JString sources) [] in
  match data with
  | JObject props => Ok (JObject (set_field (lit "sources") value props))
  | JArray elems props =>
      Ok (JArray elems (set_field (lit "sources") value props))
  | JNull | JBool _ | JNumber _ | JString _ =>
      Throw (JsError (lit "TypeError") (lit "Cannot set property 'sources'"))
  end.

Definition failure_message : jsstring :=
  lit "Failed to generate deep analysis. Please check the title/author and try again.".

(** The argument of [ai.models.generateContent]. *)
Definition request_for (title author : jsstring) : GenerateContentParameters :=
  let modelId := lit "gemini-3-pro-preview" in
  {| model := modelId;
     contents := prompt title author;
     config := {| tools_googleSearch := true;
                  generationConfig_temperature := lit "0.3" |} |}.

Definition console_label : jsstring := lit "Error generating book infographic:".

(** [new Error(failure_message)] *)
Definition failure : Thrown := JsError (lit "Error") failure_message.

Section WithHost.
Context {host : Host}.

Definition generateBookInfographic (title author : jsstring) : Eff JsValue :=
  let request := request_for title author in
  try_catch
    (emit (NetGenerateContent request) ;;;
     response <- lift (generateContent request) ;;
     let text := or_else (text response) (lit "{}") in
     let sources := sources_of response in
     data <- lift (JSON_parse (cleanJson text)) ;;
     data <- lift (assign_sources data sources) ;;
     ret data)
    (fun error =>
       emit (ConsoleError console_label error) ;;;
       throw failure).

End WithHost.

End GeminiService.

(* ================================================================== *)
(** * App.tsx: the view state controller *)
(* ================================================================== *)

Module App.
Import GeminiService.

Inductive Step : Type := StepInput | StepLoading | StepResult | StepError.

Record Inputs : Type := { title : jsstring; author : jsstring }.

(** The four state cells of the component. *)
Record AppState : Type := {
  step : Step;
  inputs : Inputs;
  data : option JsValue;
  errorMsg : jsstring
}.

Definition initial : AppState :=
  {| step := StepInput;
     inputs := {| title := []; author := [] |};
     data := None;
     errorMsg := [] |}.

Definition setStep (v : Step) (st : AppState) : AppState :=
  {| step := v; inputs := inputs st; data := data st; errorMsg := errorMsg st |}.
Definition setInputs (v : Inputs) (st : AppState) : AppState :=
  {| step := step st; inputs := v; data := data st; errorMsg := errorMsg st |}.
Definition setData (v : option JsValue) (st : AppState) : AppState :=
  {| step := step st; inputs := inputs st; data := v; errorMsg := errorMsg st |}.
Definition setErrorMsg (v : jsstring) (st : AppState) : AppState :=
  {| step := step st; inputs := inputs st; data := data st; errorMsg := v |}.

(** The [name] attribute of the two text inputs. *)
Inductive InputName : Type := NameTitle | NameAuthor.

Definition handleInputChange (name : InputName) (value : jsstring)
  (st : AppState) : AppState :=
  let prev := inputs st in
  setInputs
    match name with
    | NameTitle => {| title := value; author := author prev |}
    | NameAuthor => {| title := title prev; author := value |}
    end st.

Definition validation_message : jsstring :=
  lit "Please enter both the book title and the author.".

(** [!s] on a string *)
Definition is_empty (s : jsstring) : bool :=
  match s with [] => true | _ :: _ => false end.

(** [err instanceof Error ? err.message : ...] *)
Definition message_of (err : Thrown) : jsstring :=
  match err with
  | JsError _ message => message
  | ThrownValue _ => lit "An unexpected error occurred"
  end.

Section WithHost.
Context {host : Host}.

(** The submit handler, run to the settlement of the awaited call: the trace
    of what it did outside and the state it leaves. *)
Definition handleConfirm (st : AppState) : list Event * AppState :=
  let inputs := inputs st in
  if is_empty (title inputs) || is_empty (author inputs)
  then ([], setErrorMsg validation_message st)
  else
    let st := setErrorMsg [] (setStep StepLoading st) in
    match generateBookInfographic (title inputs) (author inputs) with
    | (tr, Ok result) => (tr, setStep StepResult (setData (Some result) st))
    | (tr, Throw err) =>
        (tr, setErrorMsg (message_of err) (setStep StepError st))
    end.

End WithHost.

Definition handleReset (st : AppState) : AppState :=
  setErrorMsg []
    (setStep StepInput
       (setData None (setInputs {| title := []; author := [] |} st))).

(** The [onClick] of the Try Again button of the error screen. *)
Definition tryAgain_onClick (st : AppState) : AppState :=
  setStep StepInput st.

End App.

(* ================================================================== *)
(** * components/Infographic: the PDF export of the slide viewer *)
(* ================================================================== *)

Module Infographic.

Record ViewerState : Type := { currentSlide : nat; isDownloading : bool }.

Definition setIsDownloading (v : bool) (st : ViewerState) : ViewerState :=
  {| currentSlide := currentSlide st; isDownloading := v |}.

(** [data.title.replace(/\s+/g, '_')]: reading [replace] off a title that is
    absent or not a string throws a [TypeError]. *)
Definition title_replaced (data : JsValue) : result jsstring :=
  match get_named data (lit "title") with
  | Some (JString title) => Ok (replace_ws_runs (lit "_") title)
  | _ => Throw (JsError (lit "TypeError") (lit "data.title.replace is not a function"))
  end.

Definition filename_suffix : jsstring := lit "_Presentation.pdf".

Section WithRasterizer.
(** The off-screen slide elements and their rasterization: [html2canvas]
    followed by [toDataURL], which resolves to the image data or rejects. *)
Variable Slide : Type.
Variable html2canvas : Slide -> result jsstring.

(** The body of the [for] loop from index [i] on. *)
Fixpoint capture_from (i : nat) (slides : list Slide) : Eff unit :=
  match slides with
  | [] => ret tt
  | slide :: rest =>
      imgData <- lift (html2canvas slide) ;;
      (if (0 <? i)%nat then emit PdfAddPage else ret tt) ;;;
      emit (PdfAddImage imgData 297 167) ;;;
      capture_from (S i) rest
  end.

(** [printContainer] is the content of [printContainerRef.current]: the
    children of the hidden container, or [None] when it is not mounted. *)
Definition handleDownloadPdf (printContainer : option (list Slide))
  (data : JsValue) (st : ViewerState) : list Event * ViewerState :=
  match printContainer with
  | None => ([], st)
  | Some slides =>
      let st := setIsDownloading true st in
      let body :=
        try_catch
          (emit (PdfNew 297 167) ;;;
           capture_from 0 slides ;;;
           name <- lift (title_replaced data) ;;
           emit (PdfSave (name ++ filename_suffix)))
          (fun error =>
             emit (ConsoleError (lit "Error generating PDF:") error) ;;;
             emit (WindowAlert (lit "Could not generate PDF. Please try again.")))
      in (trace body, setIsDownloading false st)
  end.

End WithRasterizer.
Arguments capture_from {Slide} html2canvas i slides.
Arguments handleDownloadPdf {Slide} html2canvas printContainer data st.

End Infographic.

(* ================================================================== *)
(** * A reference host *)
(* ================================================================== *)

(** The service is stated over any [Host].  This module gives one to run it
    on concrete responses: a parser for the JSON grammar (ECMA-404) with the
    result conventions of the built-in [JSON.parse] (a later duplicate key
    overwrites the earlier value in place), and a canned API answer. *)
Module Reference.

Local Open Scope N_scope.

Definition is_json_ws (c : N) : bool :=
  (c =? 32) || (c =? 9) || (c =? 10) || (c =? 13).

Fixpoint skip_ws (s : jsstring) : jsstring :=
  match s with
  | c :: s' => if is_json_ws c then skip_ws s' else s
  | [] => []
  end.

Definition is_digit (c : N) : bool := (48 <=? c) && (c <=? 57).

(** The longest prefix of digits, and what follows it. *)
Fixpoint span_digits (s : jsstring) : jsstring * jsstring :=
  match s with
  | c :: s' =>
      if is_digit c
      then let (ds, rest) := span_digits s' in (c :: ds, rest)
      else ([], s)
  | [] => ([], [])
  end.

Definition digits1 (s : jsstring) : option (jsstring * jsstring) :=
  match span_digits s with
  | ([], _) => None
  | (ds, rest) => Some (ds, rest)
  end.

(** [-? int frac? exp?]: the literal and the rest of the input. *)
Definition parse_number (s : jsstring) : option (jsstring * jsstring) :=
  let (sign, s1) :=
    match s with 45 :: r => ([45], r) | _ => ([], s) end in
  let int_part :=
    match s1 with
    | 48 :: r => Some ([48], r)
    | _ => digits1 s1
    end in
  match int_part with
  | None => None
  | Some (int, s2) =>
      let frac_part :=
        match s2 with
        | 46 :: r =>
            match digits1 r with
            | Some (ds, r') => Some (46 :: ds, r')
            | None => None
            end
        | _ => Some ([], s2)
        end in
      match frac_part with
      | None => None
      | Some (frac, s3) =>
          match s3 with
          | e :: r =>
              if (e =? 101) || (e =? 69)
              then
                let (esign, r1) :=
                  match r with
                  | 43 :: r' => ([43], r')
                  | 45 :: r' => ([45], r')
                  | _ => ([], r)
                  end in
                match digits1 r1 with
                | Some (ds, r2) =>
                    Some (sign ++ int ++ frac ++ e :: esign ++ ds, r2)
                | None => None
                end
              else Some (sign ++ int ++ frac, s3)
          | [] => Some (sign ++ int ++ frac, s3)
          end
      end
  end.

Definition hex_value (c : N) : option N :=
  if is_digit c then Some (c - 48)
  else if (97 <=? c) && (c <=? 102) then Some (c - 87)
  else if (65 <=? c) && (c <=? 70) then Some (c - 55)
  else None.

Definition hex4 (a b c d : N) : option N :=
  match hex_value a, hex_value b, hex_value c, hex_value d with
  | Some x, Some y, Some z, Some w => Some (((x * 16 + y) * 16 + z) * 16 + w)
  | _, _, _, _ => None
  end.

(** The characters of a string after its opening quote, up to the closing
    one; [acc] holds the decoded code units in reverse. *)
Fixpoint parse_string_body (acc s : jsstring) : option (jsstring * jsstring) :=
  match s with
  | [] => None
  | c :: rest =>
      if c =? 34 then Some (rev acc, rest)
      else if c =? 92 then
        match rest with
        | [] => None
        | e :: rest1 =>
            if (e =? 34) || (e =? 92) || (e =? 47)
            then parse_string_body (e :: acc) rest1
            else if e =? 98 then parse_string_body (8 :: acc) rest1
            else if e =? 102 then parse_string_body (12 :: acc) rest1
            else if e =? 110 then parse_string_body (10 :: acc) rest1
            else if e =? 114 then parse_string_body (13 :: acc) rest1
            else if e =? 116 then parse_string_body (9 :: acc) rest1
            else if e =? 117 then
              match rest1 with
              | h1 :: h2 :: h3 :: h4 :: rest2 =>
                  match hex4 h1 h2 h3 h4 with
                  | Some u => parse_string_body (u :: acc) rest2
                  | None => None
                  end
              | _ => None
              end
            else None
        end
      else if c <? 32 then None
      else parse_string_body (c :: acc) rest
  end.

Fixpoint parse_value (fuel : nat) (s : jsstring) : option (JsValue * jsstring) :=
  match fuel with
  | O => None
  | S fuel' =>
      match skip_ws s with
      | [] => None
      | c :: rest =>
          if c =? 123 then
            match skip_ws rest with
            | 125 :: rest' => Some (JObject [], rest')
            | _ => parse_members fuel' [] rest
            end
          else if c =? 91 then
            match skip_ws rest with
            | 93 :: rest' => Some (JArray [] [], rest')
            | _ => parse_elements fuel' [] rest
            end
          else if c =? 34 then
            match parse_string_body [] rest with
            | Some (str, rest') => Some (JString str, rest')
            | None => None
            end
          else if startsWith (c :: rest) (lit "true")
          then Some (JBool true, skipn 4 (c :: rest))
          else if startsWith (c :: rest) (lit "false")
          then Some (JBool false, skipn 5 (c :: rest))
          else if startsWith (c :: rest) (lit "null")
          then Some (JNull, skipn 4 (c :: rest))
          else
            match parse_number (c :: rest) with
            | Some (literal, rest') => Some (JNumber literal, rest')
            | None => None
            end
      end
  end
with parse_elements (fuel : nat) (acc : list JsValue) (s : jsstring)
  : option (JsValue * jsstring) :=
  match fuel with
  | O => None
  | S fuel' =>
      match parse_value fuel' s with
      | None => None
      | Some (v, rest) =>
          match skip_ws rest with
          | 44 :: rest' => parse_elements fuel' (v :: acc) rest'
          | 93 :: rest' => Some (JArray (rev (v :: acc)) [], rest')
          | _ => None
          end
      end
  end
with parse_members (fuel : nat) (acc : list (jsstring * JsValue)) (s : jsstring)
  : option (JsValue * jsstring) :=
  match fuel with
  | O => None
  | S fuel' =>
      match skip_ws s with
      | 34 :: rest =>
          match parse_string_body [] rest with
          | None => None
          | Some (key, rest1) =>
              match skip_ws rest1 with
              | 58 :: rest2 =>
                  match parse_value fuel' rest2 with
                  | None => None
                  | Some (v, rest3) =>
                      match skip_ws rest3 with
                      | 44 :: rest' =>
                          parse_members fuel' (set_field key v acc) rest'
                      | 125 :: rest' =>
                          Some (JObject (set_field key v acc), rest')
                      | _ => None
                      end
                  end
              | _ => None
              end
          end
      | _ => None
      end
  end.

Definition syntax_error : Thrown :=
  JsError (lit "SyntaxError") (lit "Unexpected token in JSON").

(** Every recursive call follows the reading of at least one code unit, so
    the length of the input bounds the depth. *)
Definition parse (s : jsstring) : result JsValue :=
  match parse_value (2 * List.length s + 2) s with
  | Some (v, rest) =>
      match skip_ws rest with
      | [] => Ok v
      | _ :: _ => Throw syntax_error
      end
  | None => Throw syntax_error
  end.

(** The host whose API call settles as [answer] whatever the request. *)
Definition host_answering (answer : result GenerateContentResponse) : Host :=
  {| generateContent := fun _ => answer; JSON_parse := parse |}.

Definition network_error : Thrown :=
  JsError (lit "TypeError") (lit "Failed to fetch").

Definition offline : Host := host_answering (Throw network_error).

(** A response that carries only a text. *)
Definition text_only (t : jsstring) : GenerateContentResponse :=
  {| text := Some t; candidates := None |}.

(** A response with the given text and one candidate grounded on chunks with
    the given optional URIs ([None]: the chunk has no [web] part). *)
Definition grounded (t : option jsstring) (uris : list (option jsstring))
  : GenerateContentResponse :=
  {| text := t;
     candidates :=
       Some [ {| groundingMetadata :=
                   Some {| groundingChunks :=
                             Some (map (fun u =>
                                          match u with
                                          | Some s => {| web := Some {| uri := Some s |} |}
                                          | None => {| web := None |}
                                          end) uris) |} |} ] |}.

(** A grounded answer: two chunks with a URI and one without a [web] part
    between them, and a model text that wraps the object in prose and
    carries a [sources] field of its own. *)
Definition grounded_answer : GenerateContentResponse :=
  grounded
    (Some (tpl "Here it is: {`title`: `Dune`, `sources`: [`made up`]} Enjoy."))
    [Some (lit "https://a.example/x"); None; Some (lit "https://b.example/y")].

(** An answer cut short in the middle of the object. *)
Definition truncated_answer : GenerateContentResponse :=
  text_only (tpl "{`title`: `Dune`, ").

(** The view state after the user typed a title and an author. *)
Definition typed (title author : jsstring) : App.AppState :=
  App.handleInputChange App.NameAuthor author
    (App.handleInputChange App.NameTitle title App.initial).

End Reference.

(* ================================================================== *)
(** * The vocabulary of the specification *)
(* ================================================================== *)

Module Spec.

(** [pat] occurs in [s] as a contiguous substring. *)
Definition occurs (pat s : jsstring) : Prop :=
  exists before after, s = before ++ pat ++ after.

(** The number of positions of [s] at which [pat] occurs. *)
Fixpoint occurrences (pat s : jsstring) : nat :=
  (if startsWith s pat then 1 else 0)
  + match s with
    | [] => 0
    | _ :: s' => occurrences pat s'
    end.

(** The triple backtick of a code fence. *)
Definition fence : jsstring := lit "```".

(** The maximal runs of a string: each run is tagged by whether it is made of
    whitespace, and consecutive runs carry different tags. *)
Fixpoint runs (s : jsstring) : list (bool * jsstring) :=
  match s with
  | [] => []
  | c :: s' =>
      match runs s' with
      | (w, r) :: rest =>
          if Bool.eqb w (is_whitespace c)
          then (w, c :: r) :: rest
          else (is_whitespace c, [c]) :: (w, r) :: rest
      | [] => [(is_whitespace c, [c])]
      end
  end.

(** A run is not empty and is all whitespace or all not, as its tag says. *)
Definition run_ok (run : bool * jsstring) : Prop :=
  snd run <> [] /\ Forall (fun c => is_whitespace c = fst run) (snd run).

(** Consecutive runs carry different tags: no run can be extended. *)
Fixpoint alternating (l : list (bool * jsstring)) : Prop :=
  match l with
  | a :: (b :: _) as rest => fst a <> fst b /\ alternating rest
  | _ => True
  end.

(** Every maximal run of whitespace replaced by a single underscore. *)
Definition underscore_run (run : bool * jsstring) : jsstring :=
  if fst run then lit "_" else snd run.

Definition whitespace_runs_to_underscores (s : jsstring) : jsstring :=
  flat_map underscore_run (runs s).

(** The URIs of the chunks that have one, in order. *)
Definition uris_present (chunks : list GroundingChunk) : list jsstring :=
  flat_map (fun chunk =>
              match GeminiService.chunk_uri chunk with
              | Some u => [u]
              | None => []
              end) chunks.

(** The URIs of the chunks that have a non-empty one, in order. *)
Definition uris_nonempty (chunks : list GroundingChunk) : list jsstring :=
  flat_map (fun chunk =>
              match GeminiService.chunk_uri chunk with
              | Some (c :: u) => [c :: u]
              | Some [] | None => []
              end) chunks.

(** The names of the files written by a run, in order. *)
Definition saved_files (tr : list Event) : list jsstring :=
  flat_map (fun ev =>
              match ev with
              | PdfSave filename => [filename]
              | _ => []
              end) tr.

(** The fixed text around the two slots of the prompt. *)
Definition before_title : jsstring :=
  newline :: tpl "  Act as a world-class literary critic and expert analyst. I need a deep, high-level analysis of the book `".
Definition between_title_and_author : jsstring := tpl "` by `".
Definition after_author : jsstring :=
  tpl "`, suitable for a professional lecture or slide deck."
  ++ newline :: join [newline] (tl (tl (GeminiService.prompt_lines [] []))).

End Spec.

(* ================================================================== *)
(** * The slide viewer: navigation, templates and the print container *)
(* ================================================================== *)

Module Viewer.
Import Infographic.

Definition totalSlides : nat := 10.

(** [setCurrentSlide(prev => Math.min(prev + 1, totalSlides - 1))] *)
Definition nextSlide (st : ViewerState) : ViewerState :=
  {| currentSlide :=
       Z.to_nat (Z.min (Z.of_nat (currentSlide st) + 1)
                       (Z.of_nat totalSlides - 1));
     isDownloading := isDownloading st |}.

(** [setCurrentSlide(prev => Math.max(prev - 1, 0))] *)
Definition prevSlide (st : ViewerState) : ViewerState :=
  {| currentSlide := Z.to_nat (Z.max (Z.of_nat (currentSlide st) - 1) 0);
     isDownloading := isDownloading st |}.

(** The state of a freshly mounted viewer. *)
Definition mounted : ViewerState :=
  {| currentSlide := 0; isDownloading := false |}.

(** [disabled={currentSlide === 0}] and
    [disabled={currentSlide === totalSlides - 1}] *)
Definition prev_disabled (st : ViewerState) : bool :=
  (currentSlide st =? 0)%nat.
Definition next_disabled (st : ViewerState) : bool :=
  (currentSlide st =? totalSlides - 1)%nat.

(** A click on one of the two navigation controls. *)
Inductive Nav : Type := Next | Prev.

Definition navigate (click : Nav) (st : ViewerState) : ViewerState :=
  match click with
  | Next => nextSlide st
  | Prev => prevSlide st
  end.

Definition navigate_all (clicks : list Nav) (st : ViewerState) : ViewerState :=
  fold_left (fun s click => navigate click s) clicks st.

(** The ten templates of [renderSlideContent], named by the comments of
    their [case]s. *)
Inductive Template : Type :=
| Cover | Synopsis | TargetAudience | Characters | NarrativeArc
| Themes | KeyConcepts1 | KeyConcepts2 | KeyQuote | Conclusion.

(** Which template [renderSlideContent(index)] instantiates; [None] is the
    [null] of the [default] case. *)
Definition renderSlideContent (index : nat) : option Template :=
  match index with
  | 0 => Some Cover
  | 1 => Some Synopsis
  | 2 => Some TargetAudience
  | 3 => Some Characters
  | 4 => Some NarrativeArc
  | 5 => Some Themes
  | 6 => Some KeyConcepts1
  | 7 => Some KeyConcepts2
  | 8 => Some KeyQuote
  | 9 => Some Conclusion
  | _ => None
  end.

(** [array.slice(start, end)]: a negative index counts from the end, both
    are clamped to the array, and an empty range gives the empty array. *)
Definition slice {A : Type} (l : list A) (start end_ : Z) : list A :=
  let len := Z.of_nat (length l) in
  let clamp i := if (i <? 0)%Z then Z.max (len + i) 0 else Z.min i len in
  let from := clamp start in
  let to := clamp end_ in
  firstn (Z.to_nat (Z.max (to - from) 0)) (skipn (Z.to_nat from) l).

Definition not_an_array (name : jsstring) : Thrown :=
  JsError (lit "TypeError") (lit "data." ++ name ++ lit ".slice(...).map is not a function").

(** [data.name.slice(start, end).map(...)]: the items that the template maps
    over.  Only an array has both [slice] and [map]; on anything else the
    rendering throws a [TypeError]. *)
Definition items (data : JsValue) (name : jsstring) (start end_ : Z)
  : result (list JsValue) :=
  match get_named data name with
  | Some (JArray elems _) => Ok (slice elems start end_)
  | _ => Throw (not_an_array name)
  end.

(** The items shown by the templates that cut their list. *)
Definition characters_shown (data : JsValue) : result (list JsValue) :=
  items data (lit "characters") 0 4.
Definition themes_shown (data : JsValue) : result (list JsValue) :=
  items data (lit "themes") 0 3.
Definition concepts1_shown (data : JsValue) : result (list JsValue) :=
  items data (lit "keyConcepts") 0 2.
Definition concepts2_shown (data : JsValue) : result (list JsValue) :=
  items data (lit "keyConcepts") 2 4.

(** The element tree of the hidden print container. *)
Inductive Dom : Type :=
| Div (children : list Dom)
| Rendered (content : option Template).

Definition children (element : Dom) : list Dom :=
  match element with
  | Div cs => cs
  | Rendered _ => []
  end.

(** The container that carries [printContainerRef]: it holds one fixed-width
    [div], and that one holds a [div] for each index below [totalSlides]. *)
Definition printContainer : Dom :=
  Div [ Div (map (fun idx => Div [Rendered (renderSlideContent idx)])
               (seq 0 totalSlides)) ].

End Viewer.

(* ================================================================== *)
(** * The screens and the actions they offer *)
(* ================================================================== *)

Module Flow.
Import App.

(** What the user can do.  A submission carries the host as it answers at
    that moment, so that two submissions of the same inputs can settle
    differently. *)
Inductive Action : Type :=
| TypeInto (name : InputName) (value : jsstring)
| Submit (answering : Host)
| Reset
| TryAgain.

(** The controls that the screen of the current step renders: the two
    inputs and the submit button on [input]; the viewer, with its reset
    button, on [result] when a document is stored; the retry button on
    [error]; nothing on [loading]. *)
Definition offered (st : AppState) (action : Action) : bool :=
  match step st, action with
  | StepInput, TypeInto _ _ => true
  | StepInput, Submit _ => true
  | StepResult, Reset =>
      match data st with Some _ => true | None => false end
  | StepError, TryAgain => true
  | _, _ => false
  end.

Definition perform (action : Action) (st : AppState) : AppState :=
  match action with
  | TypeInto name value => handleInputChange name value st
  | Submit answering => snd (@handleConfirm answering st)
  | Reset => handleReset st
  | TryAgain => tryAgain_onClick st
  end.

(** An action that the screen does not offer cannot be taken. *)
Definition act (st : AppState) (action : Action) : AppState :=
  if offered st action then perform action st else st.

Definition session (actions : list Action) : AppState :=
  fold_left act actions initial.

(** A run of keystrokes: each edit is the input it lands in and the value
    the input then has. *)
Definition type_all (edits : list (InputName * jsstring)) (st : AppState)
  : AppState :=
  fold_left (fun s edit => handleInputChange (fst edit) (snd edit) s) edits st.

Definition same_input (a b : InputName) : bool :=
  match a, b with
  | NameTitle, NameTitle | NameAuthor, NameAuthor => true
  | _, _ => false
  end.

(** The value last given to the input [name], or [current] if none was. *)
Definition last_value (name : InputName) (edits : list (InputName * jsstring))
  (current : jsstring) : jsstring :=
  fold_left (fun v edit => if same_input name (fst edit) then snd edit else v)
    edits current.

(** What holds of the four state cells between two actions. *)
Definition settled (st : AppState) : Prop :=
  step st <> StepLoading
  /\ (step st = StepResult <-> data st <> None)
  /\ (step st = StepResult -> errorMsg st = [])
  /\ (step st = StepError -> errorMsg st = GeminiService.failure_message)
  /\ (errorMsg st = []
      \/ errorMsg st = validation_message
      \/ errorMsg st = GeminiService.failure_message).

(** What the conclusion slide reads off the stored document: [sources] is
    an array of non-empty strings. *)
Definition has_sources (doc : JsValue) : Prop :=
  exists uris : list jsstring,
    get_named doc (lit "sources") = Some (JArray (map JString uris) [])
    /\ Forall (fun u => u <> []) uris.

End Flow.

(** ** More vocabulary *)

Module Pages.

Definition backtick : N := 96.

(** The page events of a document whose pages carry the given images: the
    first image goes on the page the document starts with, every later one
    on a page added for it. *)
Definition pages (images : list jsstring) : list Event :=
  match images with
  | [] => []
  | first :: rest =>
      PdfAddImage first 297 167
      :: flat_map (fun img => [PdfAddPage; PdfAddImage img 297 167]) rest
  end.

(** The number of network calls, of console errors and of alerts of a
    trace. *)
Definition count (test : Event -> bool) (tr : list Event) : nat :=
  length (filter test tr).
Definition is_request (ev : Event) : bool :=
  match ev with NetGenerateContent _ => true | _ => false end.
Definition is_console_error (ev : Event) : bool :=
  match ev with ConsoleError _ _ => true | _ => false end.
Definition is_alert (ev : Event) : bool :=
  match ev with WindowAlert _ => true | _ => false end.
Definition is_page (ev : Event) : bool :=
  match ev with PdfAddPage | PdfAddImage _ _ _ => true | _ => false end.

Definition every_page (tr : list Event) : Prop :=
  Forall (fun ev => is_page ev = true) tr.
Definition is_added_page (ev : Event) : bool :=
  match ev with PdfAddPage => true | _ => false end.

End Pages.
(* ================================================================== *)
(** * Properties of the string operations *)
(* ================================================================== *)

Section StringFacts.

Lemma startsWith_char (c x : N) (s : jsstring) :
  startsWith (x :: s) [c] = (c =? x)%N.
Proof. simpl. apply andb_true_r. Qed.

Lemma startsWith_app (pat rest : jsstring) : startsWith (pat ++ rest) pat = true.
Proof.
  induction pat as [|p pat IH]; simpl.
  - reflexivity.
  - now rewrite N.eqb_refl.
Qed.

Lemma startsWith_inv (pat s : jsstring) :
  startsWith s pat = true -> exists rest, s = pat ++ rest.
Proof.
  revert s; induction pat as [|p pat IH]; intros s H.
  - now exists s.
  - destruct s as [|c s]; simpl in H; [discriminate|].
    apply andb_true_iff in H as [Hpc Hrest].
    apply N.eqb_eq in Hpc; subst c.
    destruct (IH _ Hrest) as [rest ->].
    now exists rest.
Qed.

Lemma startsWith_occurs (pat s : jsstring) :
  startsWith s pat = true -> Spec.occurs pat s.
Proof.
  intros H. destruct (startsWith_inv _ _ H) as [rest ->].
  now exists [], rest.
Qed.

Lemma occurs_tail (pat s : jsstring) (c : N) :
  Spec.occurs pat s -> Spec.occurs pat (c :: s).
Proof. intros (b & a & ->). now exists (c :: b), a. Qed.

(** ** The first and the last occurrence of a code unit *)

Lemma first_occurrence (c : N) (s : jsstring) :
  In c s -> exists before rest, s = before ++ c :: rest /\ ~ In c before.
Proof.
  induction s as [|x s IH]; intros Hin; [contradiction|].
  destruct (N.eq_dec x c) as [->|Hne].
  - exists [], s. split; [reflexivity|]. intros [].
  - destruct Hin as [E|Hin]; [contradiction|].
    destruct (IH Hin) as (before & rest & -> & Hnot).
    exists (x :: before), rest. split; [reflexivity|].
    intros [E|Hin']; [contradiction|]. now apply Hnot.
Qed.

Lemma last_occurrence (c : N) (s : jsstring) :
  In c s -> exists rest after, s = rest ++ c :: after /\ ~ In c after.
Proof.
  intros Hin. apply in_rev in Hin.
  destruct (first_occurrence c (rev s) Hin) as (before & rest & E & Hnot).
  exists (rev rest), (rev before). split.
  - rewrite <- (rev_involutive s), E, rev_app_distr. cbn [rev].
    now rewrite <- app_assoc.
  - intros H. apply Hnot. now apply in_rev.
Qed.

(** ** [indexOf] and [lastIndexOf] of a single code unit *)

Lemma indexOf_from_first (c : N) (before rest : jsstring) (i : Z) :
  ~ In c before ->
  indexOf_from i (before ++ c :: rest) [c] = (i + Z.of_nat (length before))%Z.
Proof.
  revert i; induction before as [|x before IH]; intros i Hnot.
  - cbn [app indexOf_from]. rewrite startsWith_char, N.eqb_refl. simpl. lia.
  - cbn [app indexOf_from]. rewrite startsWith_char.
    destruct (N.eqb_spec c x) as [->|Hne].
    + exfalso. apply Hnot. now left.
    + rewrite IH by (intros Hin; apply Hnot; now right).
      cbn [length]. lia.
Qed.

Lemma indexOf_from_absent (c : N) (s : jsstring) (i : Z) :
  ~ In c s -> indexOf_from i s [c] = (-1)%Z.
Proof.
  revert i; induction s as [|x s IH]; intros i Hnot.
  - reflexivity.
  - cbn [indexOf_from]. rewrite startsWith_char.
    destruct (N.eqb_spec c x) as [->|Hne].
    + exfalso. apply Hnot. now left.
    + apply IH. intros Hin; apply Hnot; now right.
Qed.

Lemma lastIndexOf_from_absent (c : N) (s : jsstring) (i : Z) :
  ~ In c s -> lastIndexOf_from i s [c] = (-1)%Z.
Proof.
  revert i; induction s as [|x s IH]; intros i Hnot.
  - reflexivity.
  - cbn [lastIndexOf_from]. rewrite IH by (intros Hin; apply Hnot; now right).
    rewrite startsWith_char. simpl.
    destruct (N.eqb_spec c x) as [->|Hne]; [|reflexivity].
    exfalso. apply Hnot. now left.
Qed.

Lemma lastIndexOf_from_last (c : N) (before after : jsstring) (i : Z) :
  (0 <= i)%Z -> ~ In c after ->
  lastIndexOf_from i (before ++ c :: after) [c]
  = (i + Z.of_nat (length before))%Z.
Proof.
  revert i; induction before as [|x before IH]; intros i Hi Hnot.
  - cbn [app lastIndexOf_from].
    rewrite lastIndexOf_from_absent by assumption.
    rewrite startsWith_char, N.eqb_refl.
    simpl. lia.
  - cbn [app lastIndexOf_from]. rewrite IH by (assumption || lia).
    destruct (Z.eqb_spec (i + 1 + Z.of_nat (length before)) (-1)) as [E|_].
    + lia.
    + cbn [length]. lia.
Qed.

(** ** [substring] *)

Lemma substring_middle (before mid after : jsstring) :
  substring (before ++ mid ++ after)
    (Z.of_nat (length before)) (Z.of_nat (length before + length mid)) = mid.
Proof.
  unfold substring. rewrite !length_app.
  set (lb := length before). set (lm := length mid). set (la := length after).
  replace (Z.min (Z.max (Z.of_nat lb) 0) (Z.of_nat (lb + (lm + la))))
    with (Z.of_nat lb) by lia.
  replace (Z.min (Z.max (Z.of_nat (lb + lm)) 0) (Z.of_nat (lb + (lm + la))))
    with (Z.of_nat (lb + lm)) by lia.
  replace (Z.min (Z.of_nat lb) (Z.of_nat (lb + lm))) with (Z.of_nat lb) by lia.
  replace (Z.max (Z.of_nat lb) (Z.of_nat (lb + lm)) - Z.of_nat lb)%Z
    with (Z.of_nat lm) by lia.
  rewrite !Nat2Z.id. subst lb lm.
  rewrite skipn_app, skipn_all, Nat.sub_diag. cbn [app skipn].
  now rewrite firstn_app, firstn_all, Nat.sub_diag, firstn_O, app_nil_r.
Qed.

(** ** Global replacement of a literal that does not occur *)

Lemma replace_literal_absent (pat rep s : jsstring) :
  ~ Spec.occurs pat s -> replace_literal pat rep s = s.
Proof.
  unfold replace_literal. induction s as [|c s IH]; intros Hnot.
  - reflexivity.
  - cbn [replace_literal_from].
    destruct (startsWith (c :: s) pat) eqn:E.
    + exfalso. apply Hnot. now apply startsWith_occurs.
    + f_equal. apply IH. intros Hocc. apply Hnot. now apply occurs_tail.
Qed.

Lemma occurs_prefix (pat more s : jsstring) :
  Spec.occurs (pat ++ more) s -> Spec.occurs pat s.
Proof.
  intros (b & a & ->). exists b, (more ++ a). now rewrite <- app_assoc.
Qed.

(** ** [trim] only removes code units *)

Lemma trimStart_incl (s : jsstring) (c : N) : In c (trimStart s) -> In c s.
Proof.
  induction s as [|x s IH]; simpl; [tauto|].
  destruct (is_whitespace x); [|tauto].
  intros H. right. now apply IH.
Qed.

Lemma trim_incl (s : jsstring) (c : N) : In c (trim s) -> In c s.
Proof.
  unfold trim, trimEnd. intros H.
  apply in_rev in H. apply trimStart_incl in H. apply in_rev in H.
  now apply trimStart_incl.
Qed.

End StringFacts.

Lemma occurs_occurrences (pat s : jsstring) :
  Spec.occurs pat s -> 1 <= Spec.occurrences pat s.
Proof.
  intros (before & after & ->).
  induction before as [|c before IH].
  - destruct pat as [|p pat]; cbn [app Spec.occurrences].
    + destruct after; simpl; lia.
    + change (p :: pat ++ after) with ((p :: pat) ++ after).
      rewrite startsWith_app. lia.
  - cbn [app Spec.occurrences]. lia.
Qed.

Lemma occurrences_zero_absent (pat s : jsstring) :
  Spec.occurrences pat s = 0 -> ~ Spec.occurs pat s.
Proof. intros H Hocc. apply occurs_occurrences in Hocc. lia. Qed.

(* ================================================================== *)
(** * The response recoverer *)
(* ================================================================== *)

Section Recovery.
Import GeminiService.

(** The span between the first opening brace and the last closing brace. *)
Lemma cleanJson_brace_span (before mid after : jsstring) :
  ~ In lbrace before ->
  ~ In rbrace after ->
  cleanJson (before ++ lbrace :: mid ++ rbrace :: after)
  = lbrace :: mid ++ [rbrace].
Proof.
  intros Hfirst Hlast. unfold cleanJson.
  change (lit "{") with [lbrace]. change (lit "}") with [rbrace].
  unfold indexOf, lastIndexOf.
  rewrite indexOf_from_first by assumption.
  replace (before ++ lbrace :: mid ++ rbrace :: after)
    with ((before ++ lbrace :: mid) ++ rbrace :: after)
    by (now rewrite <- app_assoc).
  rewrite lastIndexOf_from_last by (assumption || lia).
  rewrite length_app. cbn [length].
  set (lb := length before). set (lm := length mid).
  replace (negb (0 + Z.of_nat lb =? -1)%Z) with true
    by (symmetry; apply negb_true_iff, Z.eqb_neq; lia).
  replace (negb (0 + Z.of_nat (lb + S lm) =? -1)%Z) with true
    by (symmetry; apply negb_true_iff, Z.eqb_neq; lia).
  replace (0 + Z.of_nat (lb + S lm) >? 0 + Z.of_nat lb)%Z with true
    by (symmetry; rewrite Z.gtb_ltb; apply Z.ltb_lt; lia).
  cbn [andb].
  replace (0 + Z.of_nat lb)%Z with (Z.of_nat (length before)) by (subst lb; lia).
  replace (0 + Z.of_nat (lb + S lm) + 1)%Z
    with (Z.of_nat (length before + length (lbrace :: mid ++ [rbrace])))
    by (cbn [length]; rewrite length_app; cbn [length]; subst lb lm; lia).
  replace ((before ++ lbrace :: mid) ++ rbrace :: after)
    with (before ++ (lbrace :: mid ++ [rbrace]) ++ after).
  - apply substring_middle.
  - cbn [app]. rewrite <- !app_assoc. reflexivity.
Qed.

(** C1.  Take any text in which an opening brace is followed, somewhere
    later, by a closing brace.  Then the text reads
    [before ++ "{" ++ mid ++ "}" ++ after] with that opening brace the first
    one (none in [before]) and that closing brace the last one (none in
    [after]), and the JSON candidate is exactly the span ["{" ++ mid ++ "}"].
    Nothing is asked of fence markers: the span is taken whether or not the
    text holds any. *)
Theorem brace_span_is_the_candidate (text : jsstring) :
  (exists a b c, text = a ++ lbrace :: b ++ rbrace :: c) ->
  exists before mid after,
    text = before ++ lbrace :: mid ++ rbrace :: after
    /\ ~ In lbrace before
    /\ ~ In rbrace after
    /\ cleanJson text = lbrace :: mid ++ [rbrace].
Proof.
  intros (a & b & c & ->).
  destruct (first_occurrence lbrace (a ++ [lbrace]))
    as (before & a' & Ea & Hfirst); [apply in_or_app; right; now left|].
  destruct (last_occurrence rbrace (rbrace :: c))
    as (c' & after & Ec & Hlast); [now left|].
  assert (E : a ++ lbrace :: b ++ rbrace :: c
              = before ++ lbrace :: (a' ++ b ++ c') ++ rbrace :: after).
  { change (a ++ lbrace :: b ++ rbrace :: c)
      with (a ++ [lbrace] ++ b ++ rbrace :: c).
    rewrite app_assoc, Ea, Ec, <- !app_assoc. reflexivity. }
  exists before, (a' ++ b ++ c'), after.
  rewrite E. auto using cleanJson_brace_span.
Qed.

(** The instance of the specification: prose around the object. *)
Lemma brace_span_is_the_candidate_witness :
  exists before mid after,
    tpl "prefix {`a`:1} suffix" = before ++ lbrace :: mid ++ rbrace :: after
    /\ ~ In lbrace before
    /\ ~ In rbrace after
    /\ cleanJson (tpl "prefix {`a`:1} suffix") = lbrace :: mid ++ [rbrace].
Proof.
  apply brace_span_is_the_candidate.
  exists (lit "prefix "), (tpl "`a`:1"), (lit " suffix"). reflexivity.
Defined.

Example prose_around_object_recovered :
  cleanJson (tpl "prefix {`a`:1} suffix") = tpl "{`a`:1}".
Proof. reflexivity. Qed.

(** The span is taken from a fenced answer too: the fence markers stay
    outside it and are never stripped. *)
Example fenced_object_recovered :
  cleanJson (lit "```json" ++ newline :: tpl "{`a`:1}" ++ newline :: lit "```")
  = tpl "{`a`:1}".
Proof. reflexivity. Qed.

(** C2, as stated, fails: a text without braces and without fence markers
    is not replaced by the literal of the empty object. *)
Lemma default_literal_refuted :
  ~ (forall text : jsstring,
        ~ In lbrace text -> ~ In rbrace text -> ~ Spec.occurs Spec.fence text ->
        cleanJson text = lit "{}").
Proof.
  intros H.
  specialize (H (lit "hello")).
  assert (E : cleanJson (lit "hello") = lit "{}").
  { apply H.
    - cbv; intuition discriminate.
    - cbv; intuition discriminate.
    - apply occurrences_zero_absent. reflexivity. }
  discriminate E.
Qed.

(** C2, amended.  For a text with no brace and no fence marker the JSON
    candidate is the text itself with the surrounding whitespace trimmed,
    which is never the literal of the empty object; that literal takes the
    place of the text before recovery when the response has no text or an
    empty one. *)
Theorem braceless_candidate_is_trimmed_text :
  (forall text : jsstring,
      ~ In lbrace text -> ~ In rbrace text -> ~ Spec.occurs Spec.fence text ->
      cleanJson text = trim text /\ cleanJson text <> lit "{}")
  /\ (forall response : GenerateContentResponse,
         text response = None \/ text response = Some [] ->
         or_else (text response) (lit "{}") = lit "{}"
         /\ cleanJson (or_else (text response) (lit "{}")) = lit "{}").
Proof.
  split.
  - intros text Hl Hr Hf.
    assert (E : cleanJson text = trim text).
    { unfold cleanJson.
      change (lit "{") with [lbrace].
      unfold indexOf. rewrite indexOf_from_absent by assumption.
      cbn [Z.eqb negb andb].
      rewrite (replace_literal_absent (lit "```json")).
      - now rewrite (replace_literal_absent (lit "```")).
      - intros Hocc. apply Hf.
        apply (occurs_prefix Spec.fence (lit "json")). exact Hocc. }
    split; [exact E|].
    rewrite E. intros Heq.
    apply Hl. apply trim_incl. rewrite Heq. now left.
  - intros response [E|E]; rewrite E; split; reflexivity.
Qed.

Lemma braceless_candidate_is_trimmed_text_witness :
  cleanJson (lit "  no json here ") = lit "no json here"
  /\ cleanJson (or_else (text (Reference.grounded None [])) (lit "{}")) = lit "{}".
Proof.
  destruct braceless_candidate_is_trimmed_text as [Hraw Hempty].
  split.
  - refine (proj1 (Hraw (lit "  no json here ") _ _ _)).
    + cbv; intuition discriminate.
    + cbv; intuition discriminate.
    + apply occurrences_zero_absent. reflexivity.
  - exact (proj2 (Hempty (Reference.grounded None []) (or_introl eq_refl))).
Defined.

End Recovery.

(* ================================================================== *)
(** * The generation client *)
(* ================================================================== *)

Section Service.
Import GeminiService.

Lemma eqb_refl (s : jsstring) : Js.eqb s s = true.
Proof. unfold Js.eqb. now destruct (list_eq_dec N.eq_dec s s). Qed.

Lemma eqb_neq (s t : jsstring) : s <> t -> Js.eqb s t = false.
Proof. unfold Js.eqb. now destruct (list_eq_dec N.eq_dec s t). Qed.

Lemma get_set_field (k : jsstring) (v : JsValue) (props : list (jsstring * JsValue)) :
  get_field k (set_field k v props) = Some v.
Proof.
  induction props as [|[k' v'] props IH]; cbn [set_field get_field].
  - now rewrite eqb_refl.
  - destruct (Js.eqb k k') eqn:E; cbn [get_field].
    + now rewrite eqb_refl.
    + now rewrite E.
Qed.

Lemma filter_truthy_nonempty (chunks : list GroundingChunk) :
  filter_truthy (map chunk_uri chunks) = Spec.uris_nonempty chunks.
Proof.
  induction chunks as [|chunk chunks IH]; [reflexivity|].
  cbn [map filter_truthy Spec.uris_nonempty flat_map].
  destruct (chunk_uri chunk) as [[|c u]|]; cbn [app]; now rewrite IH.
Qed.

(** A successful assignment writes the array of the sources. *)
Lemma assign_sources_ok (data doc : JsValue) (sources : list jsstring) :
  assign_sources data sources = Ok doc ->
  get_named doc (lit "sources") = Some (JArray (map JString sources) []).
Proof.
  destruct data; cbn [assign_sources]; intros H; try discriminate;
    injection H as <-; cbn [get_named]; apply get_set_field.
Qed.

Context {host : Host}.

(** The three places where the body of the [try] can throw, and the one
    where it returns. *)
Lemma generateBookInfographic_cases (title author : jsstring) :
  let request := request_for title author in
  let failed cause :=
    ([NetGenerateContent request; ConsoleError console_label cause],
     @Throw JsValue failure) in
  generateBookInfographic title author
  = match generateContent request with
    | Throw cause => failed cause
    | Ok response =>
        match JSON_parse (cleanJson (or_else (text response) (lit "{}"))) with
        | Throw cause => failed cause
        | Ok parsed =>
            match assign_sources parsed (sources_of response) with
            | Throw cause => failed cause
            | Ok doc => ([NetGenerateContent request], Ok doc)
            end
        end
    end.
Proof.
  unfold generateBookInfographic.
  destruct (generateContent (request_for title author)) as [response|cause];
    [|reflexivity].
  cbn [lift emit bind try_catch app].
  destruct (JSON_parse _) as [parsed|cause]; [|reflexivity].
  cbn [lift emit bind try_catch app].
  destruct (assign_sources _ _) as [doc|cause]; reflexivity.
Qed.

Lemma generateBookInfographic_ok (title author : jsstring) (doc : JsValue) :
  outcome (generateBookInfographic title author) = Ok doc ->
  exists response parsed,
    generateContent (request_for title author) = Ok response
    /\ JSON_parse (cleanJson (or_else (text response) (lit "{}"))) = Ok parsed
    /\ assign_sources parsed (sources_of response) = Ok doc.
Proof.
  rewrite generateBookInfographic_cases. cbv zeta.
  destruct (generateContent _) as [response|cause]; [|discriminate].
  destruct (JSON_parse _) as [parsed|cause] eqn:Eparse; [|discriminate].
  destruct (assign_sources _ _) as [doc'|cause] eqn:Eassign; [|discriminate].
  cbn [outcome snd]. intros H; injection H as ->.
  exists response, parsed. auto.
Qed.

End Service.

Section ServiceClaims.
Import GeminiService.
Context {host : Host}.

(** C3, amended.  Whenever the call returns a document, its [sources] field
    is the array of the [web.uri] values of the grounding chunks of the
    response, in their order, without the chunks whose URI is absent or the
    empty string; this holds whatever the parsed JSON had under [sources]. *)
Theorem sources_are_the_grounding_uris
  (title author : jsstring) (response : GenerateContentResponse) (doc : JsValue) :
  generateContent (request_for title author) = Ok response ->
  outcome (generateBookInfographic title author) = Ok doc ->
  get_named doc (lit "sources")
  = Some (JArray (map JString (Spec.uris_nonempty (groundings_of response))) []).
Proof.
  intros Hcall Hok.
  destruct (generateBookInfographic_ok _ _ _ Hok)
    as (response' & parsed & Hcall' & _ & Hassign).
  rewrite Hcall in Hcall'. injection Hcall' as <-.
  rewrite (assign_sources_ok _ _ _ Hassign).
  unfold sources_of. now rewrite filter_truthy_nonempty.
Qed.

(** C4.  Whatever is thrown inside the call, by the API or by the parser (or
    by the assignment of the sources), the caller receives one and the same
    [Error] with the fixed message; the cause goes to the console only.  A
    network failure and a deserialization failure therefore give the caller
    the same thrown value, and the view shows the fixed message in the
    [error] state. *)
Theorem failures_are_flattened (title author : jsstring) :
  let run := generateBookInfographic title author in
  let request := request_for title author in
  let flattened cause :=
    run = ([NetGenerateContent request; ConsoleError console_label cause],
           Throw failure) in
  (forall thrown, outcome run = Throw thrown ->
     thrown = JsError (lit "Error")
       (lit "Failed to generate deep analysis. Please check the title/author and try again."))
  /\ (forall cause, generateContent request = Throw cause -> flattened cause)
  /\ (forall response cause,
        generateContent request = Ok response ->
        JSON_parse (cleanJson (or_else (text response) (lit "{}"))) = Throw cause ->
        flattened cause)
  /\ (forall (st : App.AppState) thrown,
        App.inputs st = {| App.title := title; App.author := author |} ->
        title <> [] -> author <> [] ->
        outcome run = Throw thrown ->
        App.step (snd (App.handleConfirm st)) = App.StepError
        /\ App.errorMsg (snd (App.handleConfirm st)) = failure_message).
Proof.
  cbv zeta.
  assert (Hthrown : forall thrown,
             outcome (generateBookInfographic title author) = Throw thrown ->
             thrown = failure).
  { intros thrown. rewrite generateBookInfographic_cases. cbv zeta.
    destruct (generateContent _) as [response|cause];
      [|intros H; injection H as <-; reflexivity].
    destruct (JSON_parse _) as [parsed|cause];
      [|intros H; injection H as <-; reflexivity].
    destruct (assign_sources _ _) as [doc|cause];
      [discriminate|intros H; injection H as <-; reflexivity]. }
  split; [exact Hthrown|].
  split; [|split].
  - intros cause Hcall.
    rewrite generateBookInfographic_cases. cbv zeta. now rewrite Hcall.
  - intros response cause Hcall Hparse.
    rewrite generateBookInfographic_cases. cbv zeta.
    now rewrite Hcall, Hparse.
  - intros st thrown Hinputs Htitle Hauthor Hrun.
    pose proof (Hthrown _ Hrun) as ->.
    unfold App.handleConfirm. cbv zeta. rewrite Hinputs.
    cbn [App.title App.author].
    destruct title as [|c title']; [contradiction|].
    destruct author as [|d author']; [contradiction|].
    cbn [App.is_empty orb App.setErrorMsg App.setStep App.inputs
         App.title App.author].
    destruct (generateBookInfographic (c :: title') (d :: author'))
      as [tr [doc|e]]; cbn [outcome snd] in Hrun; [discriminate|].
    injection Hrun as ->. split; reflexivity.
Qed.

(** C10.  When the response has no text, or an empty one, the literal of the
    empty object is what is recovered and parsed: with a parser that reads it
    as the empty object the call returns, and the document it returns has the
    attached sources array as its only field. *)
Theorem empty_text_gives_sources_only
  (title author : jsstring) (response : GenerateContentResponse) :
  JSON_parse (lit "{}") = Ok (JObject []) ->
  generateContent (request_for title author) = Ok response ->
  text response = None \/ text response = Some [] ->
  or_else (text response) (lit "{}") = lit "{}"
  /\ generateBookInfographic title author
     = ([NetGenerateContent (request_for title author)],
        Ok (JObject [(lit "sources",
                      JArray (map JString (sources_of response)) [])])).
Proof.
  intros Hparse Hcall Hempty.
  assert (E : or_else (text response) (lit "{}") = lit "{}")
    by (destruct Hempty as [-> | ->]; reflexivity).
  split; [exact E|].
  rewrite generateBookInfographic_cases. cbv zeta.
  rewrite Hcall, E.
  change (cleanJson (lit "{}")) with (lit "{}").
  rewrite Hparse. reflexivity.
Qed.

End ServiceClaims.

Section ServiceInstances.
Import GeminiService.

Lemma sources_are_the_grounding_uris_witness :
  get_named
    (JObject [(lit "title", JString (lit "Dune"));
              (lit "sources",
               JArray [JString (lit "https://a.example/x");
                       JString (lit "https://b.example/y")] [])])
    (lit "sources")
  = Some (JArray [JString (lit "https://a.example/x");
                  JString (lit "https://b.example/y")] []).
Proof.
  apply (@sources_are_the_grounding_uris
           (Reference.host_answering (Ok Reference.grounded_answer))
           (lit "Dune") (lit "Frank Herbert") Reference.grounded_answer).
  - reflexivity.
  - vm_compute. reflexivity.
Defined.

(** C3, as stated, fails: a chunk whose URI is the empty string has a URI,
    and is removed all the same. *)
Lemma empty_uri_is_dropped :
  ~ (forall (host : Host) (title author : jsstring)
            (response : GenerateContentResponse) (doc : JsValue),
        generateContent (request_for title author) = Ok response ->
        outcome (generateBookInfographic title author) = Ok doc ->
        get_named doc (lit "sources")
        = Some (JArray (map JString
                          (Spec.uris_present (groundings_of response))) [])).
Proof.
  intros H.
  pose (response :=
          Reference.grounded (Some (lit "{}"))
            [Some (lit "https://a.example/x"); Some [];
             Some (lit "https://b.example/y")]).
  specialize (H (Reference.host_answering (Ok response))
                (lit "Dune") (lit "Frank Herbert") response
                (JObject [(lit "sources",
                           JArray [JString (lit "https://a.example/x");
                                   JString (lit "https://b.example/y")] [])])).
  assert (E := H eq_refl ltac:(vm_compute; reflexivity)).
  vm_compute in E. discriminate E.
Qed.

Lemma failures_are_flattened_witness :
  outcome (@generateBookInfographic Reference.offline
             (lit "Dune") (lit "Frank Herbert"))
  = outcome (@generateBookInfographic
               (Reference.host_answering
                  (Ok Reference.truncated_answer))
               (lit "Dune") (lit "Frank Herbert")).
Proof.
  destruct (@failures_are_flattened Reference.offline
              (lit "Dune") (lit "Frank Herbert")) as (_ & Hnet & _).
  destruct (@failures_are_flattened
              (Reference.host_answering
                 (Ok Reference.truncated_answer))
              (lit "Dune") (lit "Frank Herbert")) as (_ & _ & Hparse & _).
  rewrite (Hnet Reference.network_error eq_refl).
  rewrite (Hparse Reference.truncated_answer
             Reference.syntax_error eq_refl
             ltac:(vm_compute; reflexivity)).
  reflexivity.
Defined.

Lemma empty_text_gives_sources_only_witness :
  outcome (@generateBookInfographic
             (Reference.host_answering
                (Ok (Reference.grounded (Some []) [Some (lit "https://a.example/x")])))
             (lit "Dune") (lit "Frank Herbert"))
  = Ok (JObject [(lit "sources", JArray [JString (lit "https://a.example/x")] [])]).
Proof.
  rewrite (proj2 (@empty_text_gives_sources_only
             (Reference.host_answering
                (Ok (Reference.grounded (Some []) [Some (lit "https://a.example/x")])))
             (lit "Dune") (lit "Frank Herbert")
             (Reference.grounded (Some []) [Some (lit "https://a.example/x")])
             eq_refl eq_refl (or_intror eq_refl))).
  reflexivity.
Defined.

(** C9.  A document that is returned always has a [sources] field holding an
    array of strings, whether or not the parsed JSON had one; and nothing
    more is promised: some call returns a document in which every other
    field is undefined. *)
Theorem sources_is_the_only_guaranteed_field :
  (forall (host : Host) (title author : jsstring) (doc : JsValue),
      outcome (generateBookInfographic title author) = Ok doc ->
      exists uris : list jsstring,
        get_named doc (lit "sources") = Some (JArray (map JString uris) []))
  /\ (exists (host : Host) (title author : jsstring) (doc : JsValue),
         outcome (generateBookInfographic title author) = Ok doc
         /\ forall name : jsstring,
              name <> lit "sources" -> get_named doc name = None).
Proof.
  split.
  - intros host title author doc Hok.
    destruct (generateBookInfographic_ok _ _ _ Hok)
      as (response & parsed & _ & _ & Hassign).
    exists (sources_of response). exact (assign_sources_ok _ _ _ Hassign).
  - exists (Reference.host_answering (Ok (Reference.text_only (lit "{}")))),
      (lit "Dune"), (lit "Frank Herbert"),
      (JObject [(lit "sources", JArray [] [])]).
    split.
    + vm_compute. reflexivity.
    + intros name Hname. cbn [get_named get_field].
      now rewrite (eqb_neq _ _ Hname).
Qed.

Lemma sources_is_the_only_guaranteed_field_witness :
  exists uris : list jsstring,
    get_named
      (JObject [(lit "title", JString (lit "Dune")); (lit "sources", JArray [] [])])
      (lit "sources")
    = Some (JArray (map JString uris) []).
Proof.
  apply (proj1 sources_is_the_only_guaranteed_field
           (Reference.host_answering
              (Ok (Reference.text_only (tpl "{`title`: `Dune`}"))))
           (lit "Dune") (lit "Frank Herbert")).
  vm_compute. reflexivity.
Defined.

End ServiceInstances.

(* ================================================================== *)
(** * The prompt builder *)
(* ================================================================== *)

Section Prompt.
Import GeminiService.

(** The template has one slot for the title and one for the author. *)
Lemma prompt_slots (title author : jsstring) :
  prompt title author
  = Spec.before_title ++ title ++ Spec.between_title_and_author
      ++ author ++ Spec.after_author.
Proof.
  unfold prompt, prompt_lines, Spec.before_title, Spec.after_author,
    Spec.between_title_and_author.
  cbn [join tl].
  rewrite <- !app_assoc. cbn [app].
  reflexivity.
Qed.

(** The template literal of the source is 3466 code units long around its
    two slots. *)
Lemma prompt_length (title author : jsstring) :
  length (prompt title author) = 3466 + length title + length author.
Proof.
  rewrite prompt_slots, !length_app.
  change (length Spec.before_title) with 108.
  change (length Spec.between_title_and_author) with 6.
  replace (length Spec.after_author) with 3352 by (vm_compute; reflexivity).
  lia.
Qed.

(** C5, as stated, fails: a title that the template itself quotes as an
    example occurs a second time in the prompt. *)
Lemma title_can_occur_twice :
  ~ (forall title author : jsstring,
        title <> [] -> author <> [] ->
        Spec.occurrences title (prompt title author) = 1
        /\ Spec.occurrences author (prompt title author) = 1).
Proof.
  intros H.
  assert (Htitle : lit "Liquid Modernity" <> []) by discriminate.
  assert (Hauthor : lit "Zygmunt Bauman" <> []) by discriminate.
  destruct (H _ _ Htitle Hauthor) as [E _].
  vm_compute in E. discriminate E.
Qed.

(** C5, amended.  The prompt is the fixed template with the title put once
    in the slot after [the book] and the author put once in the slot after
    [by], both unescaped; so each occurs in the prompt, at least once. *)
Theorem prompt_embeds_title_and_author (title author : jsstring) :
  prompt title author
  = Spec.before_title ++ title ++ Spec.between_title_and_author
      ++ author ++ Spec.after_author
  /\ Spec.occurs title (prompt title author)
  /\ Spec.occurs author (prompt title author)
  /\ 1 <= Spec.occurrences title (prompt title author)
  /\ 1 <= Spec.occurrences author (prompt title author).
Proof.
  assert (Ht : Spec.occurs title (prompt title author)).
  { rewrite prompt_slots. now eexists _, _. }
  assert (Ha : Spec.occurs author (prompt title author)).
  { rewrite prompt_slots.
    exists (Spec.before_title ++ title ++ Spec.between_title_and_author),
      Spec.after_author.
    now rewrite <- !app_assoc. }
  repeat split; auto using prompt_slots, occurs_occurrences.
Qed.

End Prompt.

(* ================================================================== *)
(** * The view state controller *)
(* ================================================================== *)

Section ViewState.
Import GeminiService App.

(** C6, as stated, fails: after a failed generation the Try Again button
    leaves the failure message in place. *)
Lemma try_again_keeps_the_message :
  ~ (forall st : AppState,
        step st = StepError ->
        step (tryAgain_onClick st) = StepInput
        /\ errorMsg (tryAgain_onClick st) = []
        /\ inputs (tryAgain_onClick st) = inputs st
        /\ data (tryAgain_onClick st) = data st).
Proof.
  intros H.
  destruct (H (snd (@handleConfirm Reference.offline
                      (Reference.typed (lit "Dune") (lit "Frank Herbert")))))
    as (_ & E & _).
  - vm_compute. reflexivity.
  - vm_compute in E. discriminate E.
Qed.

(** C6, amended.  The retry action sets the view state to [input] and
    changes nothing else: the error message, the inputs and the stored
    document are all left as they were. *)
Theorem try_again_only_changes_step (st : AppState) :
  step (tryAgain_onClick st) = StepInput
  /\ errorMsg (tryAgain_onClick st) = errorMsg st
  /\ inputs (tryAgain_onClick st) = inputs st
  /\ data (tryAgain_onClick st) = data st.
Proof. repeat split. Qed.

(** The reset of the result screen, by contrast, clears every cell. *)
Example reset_clears_everything (st : AppState) : handleReset st = initial.
Proof. reflexivity. Qed.

(** After a failed generation the input screen comes back with the inputs
    as typed and the fixed failure message still stored. *)
Example try_again_after_failure :
  tryAgain_onClick
    (snd (@handleConfirm Reference.offline
            (Reference.typed (lit "Dune") (lit "Frank Herbert"))))
  = {| step := StepInput;
       inputs := {| title := lit "Dune"; author := lit "Frank Herbert" |};
       data := None;
       errorMsg := failure_message |}.
Proof. vm_compute. reflexivity. Qed.

(** C7.  Submitting from the input screen with an empty title or an empty
    author does nothing outside (no event at all, hence no network call),
    keeps the view state [input] and sets the validation message. *)
Theorem empty_input_is_rejected_locally {host : Host} (st : AppState) :
  step st = StepInput ->
  title (inputs st) = [] \/ author (inputs st) = [] ->
  fst (handleConfirm st) = []
  /\ (forall request, ~ In (NetGenerateContent request) (fst (handleConfirm st)))
  /\ step (snd (handleConfirm st)) = StepInput
  /\ errorMsg (snd (handleConfirm st))
     = lit "Please enter both the book title and the author."
  /\ inputs (snd (handleConfirm st)) = inputs st
  /\ data (snd (handleConfirm st)) = data st.
Proof.
  intros Hstep Hempty.
  assert (E : handleConfirm st = ([], setErrorMsg validation_message st)).
  { unfold handleConfirm. cbv zeta.
    destruct Hempty as [-> | ->]; [reflexivity|].
    now rewrite orb_true_r. }
  rewrite E. cbn [fst snd setErrorMsg step errorMsg inputs data].
  repeat split; auto.
Qed.

Lemma empty_input_is_rejected_locally_witness :
  fst (@handleConfirm Reference.offline (Reference.typed (lit "Dune") [])) = []
  /\ step (snd (@handleConfirm Reference.offline (Reference.typed (lit "Dune") [])))
     = StepInput.
Proof.
  destruct (@empty_input_is_rejected_locally Reference.offline
              (Reference.typed (lit "Dune") []) eq_refl (or_intror eq_refl))
    as (Htrace & _ & Hstep & _).
  split; assumption.
Defined.

End ViewState.

(* ================================================================== *)
(** * The PDF export *)
(* ================================================================== *)

Section Runs.

(** [Spec.runs] cuts the string into its maximal runs. *)

Lemma runs_concat (s : jsstring) : flat_map snd (Spec.runs s) = s.
Proof.
  induction s as [|c s IH]; [reflexivity|].
  cbn [Spec.runs].
  destruct (Spec.runs s) as [|[w r] rest].
  - cbn in IH |- *. now rewrite <- IH.
  - destruct (Bool.eqb w (is_whitespace c)); cbn in IH |- *; now rewrite IH.
Qed.

Lemma runs_homogeneous (s : jsstring) : Forall Spec.run_ok (Spec.runs s).
Proof.
  induction s as [|c s IH]; [constructor|].
  cbn [Spec.runs].
  destruct (Spec.runs s) as [|[w r] rest].
  - repeat constructor. discriminate.
  - destruct (Bool.eqb w (is_whitespace c)) eqn:E.
    + apply eqb_prop in E. inversion IH as [|? ? [Hne Hall] Hrest]; subst.
      constructor; [|assumption].
      split; [discriminate|]. constructor; [now symmetry|assumption].
    + constructor; [|assumption].
      split; [discriminate|]. now repeat constructor.
Qed.

Lemma runs_alternating (s : jsstring) : Spec.alternating (Spec.runs s).
Proof.
  induction s as [|c s IH]; [exact I|].
  cbn [Spec.runs].
  destruct (Spec.runs s) as [|[w r] rest]; [exact I|].
  destruct (Bool.eqb w (is_whitespace c)) eqn:E.
  - destruct rest; [exact I|exact IH].
  - split; [|exact IH]. cbn [fst].
    apply eqb_false_iff in E. congruence.
Qed.

(** The scan of the global replacement, in and out of a match, against the
    runs of what is left to read. *)
Lemma replace_ws_runs_from_runs (s : jsstring) :
  replace_ws_runs_from false (lit "_") s
  = flat_map Spec.underscore_run (Spec.runs s)
  /\ replace_ws_runs_from true (lit "_") s
     = match Spec.runs s with
       | (true, _) :: rest => flat_map Spec.underscore_run rest
       | l => flat_map Spec.underscore_run l
       end.
Proof.
  induction s as [|c s [IHout IHin]]; [split; reflexivity|].
  cbn [replace_ws_runs_from Spec.runs].
  rewrite IHout, IHin.
  destruct (is_whitespace c), (Spec.runs s) as [|[[|] r] rest];
    split; reflexivity.
Qed.

Lemma replace_ws_runs_spec (s : jsstring) :
  replace_ws_runs (lit "_") s = Spec.whitespace_runs_to_underscores s.
Proof. exact (proj1 (replace_ws_runs_from_runs s)). Qed.

End Runs.

Section PdfExport.
Import Infographic.
Context {Slide : Type} (html2canvas : Slide -> result jsstring).

Lemma saved_files_app (tr tr' : list Event) :
  Spec.saved_files (tr ++ tr') = Spec.saved_files tr ++ Spec.saved_files tr'.
Proof. apply flat_map_app. Qed.

(** The loop saves nothing. *)
Lemma capture_from_saves_nothing (slides : list Slide) (i : nat) :
  Spec.saved_files (trace (capture_from html2canvas i slides)) = [].
Proof.
  revert i; induction slides as [|slide slides IH]; intros i; [reflexivity|].
  cbn [capture_from]. specialize (IH (S i)).
  destruct (html2canvas slide) as [img|e]; [|reflexivity].
  destruct (capture_from html2canvas (S i) slides) as [tr r].
  cbn [trace fst] in IH.
  destruct (0 <? i)%nat; cbn; exact IH.
Qed.

(** The loop runs to its end when every slide is rasterized. *)
Lemma capture_from_succeeds (slides : list Slide) (i : nat) :
  Forall (fun slide => exists img, html2canvas slide = Ok img) slides ->
  outcome (capture_from html2canvas i slides) = Ok tt.
Proof.
  intros Hall. revert i.
  induction Hall as [|slide slides [img Himg] _ IH]; intros i; [reflexivity|].
  cbn [capture_from]. rewrite Himg. specialize (IH (S i)).
  destruct (capture_from html2canvas (S i) slides) as [tr r].
  cbn [outcome snd] in IH. subst r.
  destruct (0 <? i)%nat; reflexivity.
Qed.

(** What an export saves: one file when the loop and the reading of the
    title both succeed, none otherwise. *)
Lemma handleDownloadPdf_saves (slides : list Slide) (data : JsValue)
  (st : ViewerState) :
  Spec.saved_files (fst (handleDownloadPdf html2canvas (Some slides) data st))
  = match outcome (capture_from html2canvas 0 slides), title_replaced data with
    | Ok _, Ok name => [name ++ filename_suffix]
    | _, _ => []
    end.
Proof.
  cbn [handleDownloadPdf fst].
  pose proof (capture_from_saves_nothing slides 0) as Hloop.
  destruct (capture_from html2canvas 0 slides) as [tr [[]|e]];
    cbn [trace fst outcome snd] in Hloop |- *.
  - destruct (title_replaced data) as [name|e];
      cbn [bind emit lift try_catch trace fst app];
      change (PdfNew 297 167 :: ?l) with ([PdfNew 297 167] ++ l);
      rewrite !saved_files_app, Hloop; reflexivity.
  - cbn [bind emit lift try_catch trace fst app].
    change (PdfNew 297 167 :: ?l) with ([PdfNew 297 167] ++ l).
    rewrite !saved_files_app, Hloop. reflexivity.
Qed.

Lemma title_replaced_ok (data : JsValue) (name : jsstring) :
  title_replaced data = Ok name ->
  exists title,
    get_named data (lit "title") = Some (JString title)
    /\ name = replace_ws_runs (lit "_") title.
Proof.
  unfold title_replaced.
  destruct (get_named data (lit "title")) as [[]|]; try discriminate.
  intros H; injection H as <-. now eexists.
Qed.

(** C8.  A file that the export saves is named after the title of the
    document: every maximal run of whitespace of the title replaced by one
    underscore, followed by [_Presentation.pdf].  And the export of a
    document whose title is a string saves exactly that one file, once every
    slide is rasterized. *)
Theorem export_filename (printContainer : option (list Slide))
  (data : JsValue) (st : ViewerState) :
  let saved :=
    Spec.saved_files (fst (handleDownloadPdf html2canvas printContainer data st)) in
  (forall filename, In filename saved ->
     exists title,
       get_named data (lit "title") = Some (JString title)
       /\ filename
          = Spec.whitespace_runs_to_underscores title ++ lit "_Presentation.pdf")
  /\ (forall slides title,
        printContainer = Some slides ->
        Forall (fun slide => exists img, html2canvas slide = Ok img) slides ->
        get_named data (lit "title") = Some (JString title) ->
        saved
        = [Spec.whitespace_runs_to_underscores title ++ lit "_Presentation.pdf"]).
Proof.
  cbv zeta. split.
  - intros filename Hin.
    destruct printContainer as [slides|]; [|contradiction].
    rewrite handleDownloadPdf_saves in Hin.
    destruct (outcome (capture_from html2canvas 0 slides)); [|contradiction].
    destruct (title_replaced data) as [name|e] eqn:E; [|contradiction].
    destruct Hin as [<-|[]].
    destruct (title_replaced_ok _ _ E) as (title & Htitle & ->).
    exists title. split; [exact Htitle|].
    now rewrite replace_ws_runs_spec.
  - intros slides title -> Hall Htitle.
    rewrite handleDownloadPdf_saves, (capture_from_succeeds _ 0 Hall).
    unfold title_replaced. rewrite Htitle.
    now rewrite replace_ws_runs_spec.
Qed.

End PdfExport.

Lemma export_filename_witness :
  Spec.saved_files
    (fst (Infographic.handleDownloadPdf
            (fun slide : nat => Ok (lit "data:image/png;base64,"))
            (Some (seq 0 10))
            (JObject [(lit "title", JString (lit "  A Tale   of Two Cities "))])
            {| Infographic.currentSlide := 3; Infographic.isDownloading := false |}))
  = [lit "_A_Tale_of_Two_Cities__Presentation.pdf"].
Proof.
  refine (proj2 (export_filename
                   (fun slide : nat => Ok (lit "data:image/png;base64,"))
                   (Some (seq 0 10))
                   (JObject [(lit "title", JString (lit "  A Tale   of Two Cities "))])
                   {| Infographic.currentSlide := 3;
                      Infographic.isDownloading := false |})
            (seq 0 10) (lit "  A Tale   of Two Cities ") eq_refl _ eq_refl).
  repeat constructor; now eexists.
Defined.

(* ================================================================== *)
(** * More on the response recoverer *)
(* ================================================================== *)

Section RecoveryFallback.
Import GeminiService.





(** The text as the fallback leaves it. *)
Lemma cleanJson_fallback_when (text : jsstring) :
  (indexOf text [lbrace] = -1
   \/ lastIndexOf text [rbrace] = -1
   \/ lastIndexOf text [rbrace] <= indexOf text [lbrace])%Z ->
  cleanJson text
  = trim (replace_literal (lit "```") []
            (replace_literal (lit "```json") [] text)).
Proof.
  intros H. unfold cleanJson.
  change (lit "{") with [lbrace]. change (lit "}") with [rbrace].
  destruct (indexOf text [lbrace] =? -1)%Z eqn:E1; [reflexivity|].
  destruct (lastIndexOf text [rbrace] =? -1)%Z eqn:E2; [reflexivity|].
  destruct (lastIndexOf text [rbrace] >? indexOf text [lbrace])%Z eqn:E3;
    [|reflexivity].
  apply Z.eqb_neq in E1, E2. rewrite Z.gtb_ltb in E3. apply Z.ltb_lt in E3.
  lia.
Qed.



End RecoveryFallback.

Section FenceStripping.
Import GeminiService Pages.

(** ** The global replacement of a literal, piece by piece *)

Lemma replace_literal_from_skip (pat rep : jsstring) (k : nat) (s : jsstring) :
  replace_literal_from k pat rep s = replace_literal_from 0 pat rep (skipn k s).
Proof.
  revert k; induction s as [|c s IH]; intros k.
  - now destruct k.
  - destruct k as [|k]; [reflexivity|]. cbn [replace_literal_from skipn].
    apply IH.
Qed.

(** A match at the head is replaced and the scan goes on after it. *)
Lemma replace_literal_match (p : N) (pat rep rest : jsstring) :
  replace_literal (p :: pat) rep ((p :: pat) ++ rest)
  = rep ++ replace_literal (p :: pat) rep rest.
Proof.
  unfold replace_literal. cbn [app replace_literal_from].
  change (p :: pat ++ rest) with ((p :: pat) ++ rest).
  rewrite startsWith_app. f_equal.
  rewrite replace_literal_from_skip. cbn [length Nat.sub].
  rewrite Nat.sub_0_r, skipn_app, skipn_all, Nat.sub_diag. reflexivity.
Qed.

(** No match starts in a stretch that lacks the first code unit of the
    literal. *)
Lemma replace_literal_pass (p : N) (pat rep body rest : jsstring) :
  ~ In p body ->
  replace_literal (p :: pat) rep (body ++ rest)
  = body ++ replace_literal (p :: pat) rep rest.
Proof.
  unfold replace_literal. induction body as [|c body IH]; intros Hnot.
  - reflexivity.
  - cbn [app replace_literal_from startsWith].
    destruct (N.eqb_spec p c) as [->|Hne]; [exfalso; apply Hnot; now left|].
    cbn [andb]. f_equal. apply IH. intros Hin. apply Hnot. now right.
Qed.

(** X2.  A fenced answer that holds no brace is recovered as what stands
    between the fences: for a body without backtick and without brace, the
    JSON candidate of the body opened with [```json] and closed with [```]
    is the body, trimmed. *)
Theorem fenced_body_is_recovered (body : jsstring) :
  ~ In backtick body -> ~ In lbrace body -> ~ In rbrace body ->
  cleanJson (lit "```json" ++ body ++ lit "```") = trim body.
Proof.
  intros Htick Hl Hr.
  rewrite cleanJson_fallback_when.
  - change (lit "```json") with (backtick :: lit "``json").
    rewrite replace_literal_match. cbn [app].
    rewrite replace_literal_pass by assumption.
    change (replace_literal (backtick :: lit "``json") [] (lit "```"))
      with (lit "```").
    change (lit "```") with (backtick :: lit "``").
    rewrite replace_literal_pass by assumption.
    rewrite <- (app_nil_r (backtick :: lit "``")) at 2.
    rewrite replace_literal_match. cbn [app].
    change (replace_literal (backtick :: lit "``") [] []) with (@nil N).
    now rewrite app_nil_r.
  - left. unfold indexOf. apply indexOf_from_absent.
    intros Hin. apply in_app_or in Hin as [Hin|Hin];
      [cbv in Hin; intuition discriminate|].
    apply in_app_or in Hin as [Hin|Hin]; [tauto|].
    cbv in Hin. intuition discriminate.
Qed.

Lemma fenced_body_is_recovered_witness :
  cleanJson (lit "```json" ++ (newline :: lit "[1, 2]" ++ [newline]) ++ lit "```")
  = lit "[1, 2]".
Proof.
  rewrite fenced_body_is_recovered; [reflexivity | | |];
    cbv; intuition discriminate.
Defined.

End FenceStripping.

Section RecoveryOnlyRemoves.
Import GeminiService.










End RecoveryOnlyRemoves.

(* ================================================================== *)
(** * More on the generation client *)
(* ================================================================== *)

Section ServiceExtras.
Import GeminiService Pages.
Context {host : Host}.

Lemma eqb_eq (s t : jsstring) : Js.eqb s t = true -> s = t.
Proof. unfold Js.eqb. now destruct (list_eq_dec N.eq_dec s t). Qed.

Lemma get_set_other (k k' : jsstring) (v : JsValue)
  (props : list (jsstring * JsValue)) :
  k <> k' -> get_field k (set_field k' v props) = get_field k props.
Proof.
  intros Hne. induction props as [|[k'' v''] props IH];
    cbn [set_field get_field].
  - now rewrite eqb_neq.
  - destruct (Js.eqb k' k'') eqn:E; cbn [get_field].
    + apply eqb_eq in E. subst k''. now rewrite eqb_neq.
    + now rewrite IH.
Qed.

(** X4.  One call of the service makes one request to the API, first thing,
    with the model, the built prompt, the search tool and the temperature;
    it never retries.  The console is written exactly when the call fails:
    one entry, carrying the cause. *)
Theorem one_request_per_call (title author : jsstring) :
  let run := generateBookInfographic title author in
  count is_request (trace run) = 1
  /\ hd_error (trace run) = Some (NetGenerateContent (request_for title author))
  /\ ((exists doc, outcome run = Ok doc)
      /\ trace run = [NetGenerateContent (request_for title author)]
      \/ outcome run = Throw failure
         /\ exists cause,
              trace run = [NetGenerateContent (request_for title author);
                           ConsoleError console_label cause]).
Proof.
  cbv zeta. rewrite generateBookInfographic_cases. cbv zeta.
  destruct (generateContent _) as [response|cause];
    [|now repeat split; right; split; [|exists cause]].
  destruct (JSON_parse _) as [parsed|cause];
    [|now repeat split; right; split; [|exists cause]].
  destruct (assign_sources _ _) as [doc|cause];
    [|now repeat split; right; split; [|exists cause]].
  repeat split. left. split; [now exists doc|reflexivity].
Qed.

(** X5.  A returned document is the parsed value with nothing but [sources]
    rewritten: it is an object or an array as the parsed value was, an array
    keeps its elements, and every field of another name reads as it did in
    the parsed value. *)
Theorem document_is_parsed_value_with_sources (title author : jsstring)
  (doc : JsValue) :
  outcome (generateBookInfographic title author) = Ok doc ->
  exists response parsed,
    generateContent (request_for title author) = Ok response
    /\ JSON_parse (cleanJson (or_else (text response) (lit "{}"))) = Ok parsed
    /\ match parsed, doc with
       | JObject _, JObject _ => True
       | JArray elems _, JArray elems' _ => elems' = elems
       | _, _ => False
       end
    /\ forall name, name <> lit "sources" ->
                    get_named doc name = get_named parsed name.
Proof.
  intros Hok.
  destruct (generateBookInfographic_ok _ _ _ Hok)
    as (response & parsed & Hcall & Hparse & Hassign).
  exists response, parsed. split; [exact Hcall|]. split; [exact Hparse|].
  destruct parsed; cbn [assign_sources] in Hassign; try discriminate;
    injection Hassign as <-; (split; [reflexivity|]);
    intros name Hname; cbn [get_named]; now apply get_set_other.
Qed.

(** X6.  An answer that parses to a primitive ([null], a boolean, a number
    or a string) gives no document: the call fails with the fixed error,
    like any other failure. *)
Theorem primitive_answer_fails (title author : jsstring)
  (response : GenerateContentResponse) (parsed : JsValue) :
  generateContent (request_for title author) = Ok response ->
  JSON_parse (cleanJson (or_else (text response) (lit "{}"))) = Ok parsed ->
  match parsed with
  | JObject _ | JArray _ _ => False
  | _ => True
  end ->
  outcome (generateBookInfographic title author) = Throw failure.
Proof.
  intros Hcall Hparse Hprim.
  rewrite generateBookInfographic_cases. cbv zeta. rewrite Hcall, Hparse.
  now destruct parsed.
Qed.

End ServiceExtras.

Lemma document_is_parsed_value_with_sources_witness :
  exists response parsed,
    @generateContent (Reference.host_answering (Ok Reference.grounded_answer))
      (GeminiService.request_for (lit "Dune") (lit "Frank Herbert")) = Ok response
    /\ Reference.parse
         (GeminiService.cleanJson
            (GeminiService.or_else (text response) (lit "{}"))) = Ok parsed
    /\ match parsed with
       | JObject _ => True
       | _ => False
       end
    /\ forall name, name <> lit "sources" ->
         get_named
           (JObject [(lit "title", JString (lit "Dune"));
                     (lit "sources",
                      JArray [JString (lit "https://a.example/x");
                              JString (lit "https://b.example/y")] [])])
           name
         = get_named parsed name.
Proof.
  destruct (@document_is_parsed_value_with_sources
              (Reference.host_answering (Ok Reference.grounded_answer))
              (lit "Dune") (lit "Frank Herbert")
              (JObject [(lit "title", JString (lit "Dune"));
                        (lit "sources",
                         JArray [JString (lit "https://a.example/x");
                                 JString (lit "https://b.example/y")] [])]))
    as (response & parsed & Hcall & Hparse & Hkind & Hfields);
    [vm_compute; reflexivity|].
  exists response, parsed. split; [exact Hcall|]. split; [exact Hparse|].
  split; [|exact Hfields]. destruct parsed; tauto.
Defined.

Lemma primitive_answer_fails_witness :
  outcome (@GeminiService.generateBookInfographic
             (Reference.host_answering (Ok (Reference.text_only (lit "  42 "))))
             (lit "Dune") (lit "Frank Herbert"))
  = Throw GeminiService.failure.
Proof.
  apply (@primitive_answer_fails
           (Reference.host_answering (Ok (Reference.text_only (lit "  42 "))))
           (lit "Dune") (lit "Frank Herbert")
           (Reference.text_only (lit "  42 ")) (JNumber (lit "42")));
    [reflexivity | vm_compute; reflexivity | exact I].
Defined.

Section SourcesAndPrompt.
Import GeminiService.

Lemma filter_truthy_in (uris : list (option jsstring)) (u : jsstring) :
  In u (filter_truthy uris) <-> u <> [] /\ In (Some u) uris.
Proof.
  induction uris as [|[[|c s]|] uris IH]; cbn [filter_truthy In].
  - tauto.
  - rewrite IH. split.
    + intros [Hne Hin]. auto.
    + intros [Hne [E|Hin]]; [injection E as <-; contradiction | auto].
  - rewrite IH. split.
    + intros [<-|[Hne Hin]]; [split; [discriminate | now left] | auto].
    + intros [Hne [E|Hin]]; [injection E as <-; now left | auto].
  - rewrite IH. split.
    + intros [Hne Hin]. auto.
    + intros [Hne [E|Hin]]; [discriminate | auto].
Qed.

(** X7.  The sources taken from a response are exactly the non-empty
    [web.uri] strings of the grounding chunks of its first candidate: a
    source is never empty, and each one is the URI of a chunk that is
    there.  With no candidate, no grounding metadata or no chunk list there
    is no source at all. *)
Theorem sources_are_nonempty_chunk_uris (response : GenerateContentResponse) :
  (forall u, In u (sources_of response)
             <-> u <> []
                 /\ exists chunk,
                      In chunk (groundings_of response)
                      /\ chunk_uri chunk = Some u)
  /\ length (sources_of response) <= length (groundings_of response)
  /\ (groundings_of response = [] -> sources_of response = []).
Proof.
  unfold sources_of. split; [|split].
  - intros u. rewrite filter_truthy_in, in_map_iff.
    split; intros [Hne (chunk & H1 & H2)]; (split; [exact Hne|]);
      exists chunk; tauto.
  - induction (groundings_of response) as [|chunk chunks IH]; [reflexivity|].
    cbn [map filter_truthy length].
    destruct (chunk_uri chunk) as [[|c s]|]; cbn [length]; lia.
  - now intros ->.
Qed.

Lemma sources_are_nonempty_chunk_uris_witness :
  In (lit "https://b.example/y") (sources_of Reference.grounded_answer)
  /\ sources_of (Reference.text_only (lit "{}")) = [].
Proof.
  split.
  - apply (proj1 (sources_are_nonempty_chunk_uris Reference.grounded_answer)).
    split; [discriminate|].
    exists {| web := Some {| uri := Some (lit "https://b.example/y") |} |}.
    split; [right; right; now left | reflexivity].
  - apply (proj2 (proj2 (sources_are_nonempty_chunk_uris
                           (Reference.text_only (lit "{}"))))).
    reflexivity.
Defined.

(** X8.  The two values are put in the prompt unescaped, so the prompt does
    not tell where the title ends: a title that holds the text found
    between the two slots gives the very prompt, and so the very request,
    of a shorter title with a longer author. *)
Theorem prompt_slots_are_ambiguous (a b c : jsstring) :
  prompt (a ++ Spec.between_title_and_author ++ b) c
  = prompt a (b ++ Spec.between_title_and_author ++ c)
  /\ request_for (a ++ Spec.between_title_and_author ++ b) c
     = request_for a (b ++ Spec.between_title_and_author ++ c).
Proof.
  assert (E : prompt (a ++ Spec.between_title_and_author ++ b) c
              = prompt a (b ++ Spec.between_title_and_author ++ c))
    by (rewrite !prompt_slots, <- !app_assoc; reflexivity).
  split; [exact E|]. unfold request_for. now rewrite E.
Qed.

End SourcesAndPrompt.

(* ================================================================== *)
(** * More on the view state controller *)
(* ================================================================== *)

Section Submission.
Import GeminiService App.
Context {host : Host}.

(** The three ways in which a submission settles. *)
Lemma handleConfirm_outcomes (st : AppState) :
  let title := title (inputs st) in
  let author := author (inputs st) in
  let request := NetGenerateContent (request_for title author) in
  ((title = [] \/ author = [])
   /\ handleConfirm st
      = ([], {| step := step st; inputs := inputs st; data := data st;
                errorMsg := validation_message |}))
  \/ (title <> [] /\ author <> []
      /\ exists doc,
           outcome (generateBookInfographic title author) = Ok doc
           /\ handleConfirm st
              = ([request],
                 {| step := StepResult; inputs := inputs st;
                    data := Some doc; errorMsg := [] |}))
  \/ (title <> [] /\ author <> []
      /\ exists cause,
           outcome (generateBookInfographic title author) = Throw failure
           /\ handleConfirm st
              = ([request; ConsoleError console_label cause],
                 {| step := StepError; inputs := inputs st;
                    data := data st; errorMsg := failure_message |})).
Proof.
  cbv zeta. unfold handleConfirm. cbv zeta.
  destruct (title (inputs st)) as [|c t] eqn:Et;
    [left; split; [now left | reflexivity]|].
  destruct (author (inputs st)) as [|d a] eqn:Ea;
    [left; split; [now right | reflexivity]|].
  right. cbn [is_empty orb].
  rewrite generateBookInfographic_cases. cbv zeta.
  destruct (generateContent _) as [response|cause];
    [|right; repeat split; try discriminate; now exists cause].
  destruct (JSON_parse _) as [parsed|cause];
    [|right; repeat split; try discriminate; now exists cause].
  destruct (assign_sources _ _) as [doc|cause];
    [|right; repeat split; try discriminate; now exists cause].
  left. repeat split; try discriminate. now exists doc.
Qed.


(** X9.  A submission settles in one of three ways and no other.  With an
    empty title or author: nothing happens outside and only the validation
    message is stored.  Otherwise one request is made and either the
    document is stored, the step is [result] and the message is cleared, or
    the cause is logged, the step is [error], the message is the fixed
    failure message and the stored document is untouched.  The inputs are
    never changed. *)
Theorem submit_has_three_outcomes (st : AppState) :
  let title := title (inputs st) in
  let author := author (inputs st) in
  let request := NetGenerateContent (request_for title author) in
  ((title = [] \/ author = [])
   /\ handleConfirm st
      = ([], {| step := step st; inputs := inputs st; data := data st;
                errorMsg := validation_message |}))
  \/ (title <> [] /\ author <> []
      /\ exists doc,
           outcome (generateBookInfographic title author) = Ok doc
           /\ handleConfirm st
              = ([request],
                 {| step := StepResult; inputs := inputs st;
                    data := Some doc; errorMsg := [] |}))
  \/ (title <> [] /\ author <> []
      /\ exists cause,
           outcome (generateBookInfographic title author) = Throw failure
           /\ handleConfirm st
              = ([request; ConsoleError console_label cause],
                 {| step := StepError; inputs := inputs st;
                    data := data st; errorMsg := failure_message |})).
Proof. exact (handleConfirm_outcomes st). Qed.

End Submission.

Section Typing.
Import App Flow.

Lemma type_all_frame (edits : list (InputName * jsstring)) (st : AppState) :
  step (type_all edits st) = step st
  /\ data (type_all edits st) = data st
  /\ errorMsg (type_all edits st) = errorMsg st.
Proof.
  unfold type_all. revert st.
  induction edits as [|[name value] edits IH]; intros st; [auto|].
  cbn [fold_left fst snd].
  destruct (IH (handleInputChange name value st)) as (-> & -> & ->).
  now destruct name.
Qed.

(** X10.  Typing changes the inputs and nothing else: after any run of
    keystrokes each input holds the value it was last given (or the one it
    had), while the step, the stored document and the message, a
    validation message included, are as before. *)
Theorem typing_only_changes_inputs (edits : list (InputName * jsstring))
  (st : AppState) :
  inputs (type_all edits st)
  = {| title := last_value NameTitle edits (title (inputs st));
       author := last_value NameAuthor edits (author (inputs st)) |}
  /\ step (type_all edits st) = step st
  /\ data (type_all edits st) = data st
  /\ errorMsg (type_all edits st) = errorMsg st.
Proof.
  split; [|apply type_all_frame].
  unfold type_all, last_value. revert st.
  induction edits as [|[name value] edits IH]; intros st.
  - now destruct st as [? [] ? ?].
  - cbn [fold_left fst snd]. rewrite IH. now destruct name.
Qed.

Lemma offered_submit_input (st : AppState) (h : Host) :
  offered st (Submit h) = true -> step st = StepInput.
Proof. unfold offered. now destruct (step st). Qed.

Lemma settled_act (st : AppState) (action : Action) :
  settled st -> settled (act st action).
Proof.
  intros Hst. unfold act.
  destruct (offered st action) eqn:Hoff; [|exact Hst].
  destruct Hst as (Hload & Hdoc & Hres & Herr & Hmsg).
  destruct action as [name value|answering| |]; cbn [perform].
  - (* typing *)
    unfold offered in Hoff. destruct (step st) eqn:Hstep; try discriminate.
    unfold settled. destruct name; cbn; rewrite ?Hstep; repeat split; auto;
      try discriminate; try (intros H; now apply Hdoc in H);
      try (intros H; exfalso; apply Hdoc in H; discriminate).
  - (* submission *)
    pose proof (offered_submit_input _ _ Hoff) as Hstep.
    assert (Hnone : data st = None).
    { destruct (data st) eqn:E; [|reflexivity].
      assert (H : step st = StepResult) by (apply Hdoc; discriminate).
      congruence. }
    destruct (@handleConfirm_outcomes answering st)
      as [[_ E]|[(_ & _ & doc & _ & E)|(_ & _ & cause & _ & E)]];
      rewrite E; cbn [snd]; unfold settled; cbn [step data errorMsg];
      rewrite ?Hstep, ?Hnone.
    + repeat split; auto; try discriminate; intros H; now elim H.
    + repeat split; auto; discriminate.
    + repeat split; auto; try discriminate; intros H; now elim H.
  - (* reset *)
    unfold settled; cbn. repeat split; auto; try discriminate.
    intros H; now elim H.
  - (* try again *)
    unfold offered in Hoff. destruct (step st) eqn:Hstep; try discriminate.
    assert (Hnone : data st = None).
    { destruct (data st) eqn:E; [|reflexivity].
      assert (H : StepError = StepResult) by (apply Hdoc; discriminate).
      discriminate. }
    unfold settled; cbn. rewrite Hnone.
    repeat split; auto; try discriminate. intros H; now elim H.
Qed.

(** X11.  Whatever the user does, with whatever answers from the API,
    between two actions: the step is never [loading]; a document is stored
    exactly when the step is [result], and then no message is stored; in the
    [error] step the message is the fixed failure message; and the message
    is always empty, the validation message or the failure message. *)
Theorem session_is_settled (actions : list Action) :
  settled (session actions).
Proof.
  unfold session.
  assert (H : forall st, settled st -> settled (fold_left act actions st)).
  { induction actions as [|action actions IH]; intros st Hst; [exact Hst|].
    cbn [fold_left]. apply IH. now apply settled_act. }
  apply H. unfold settled; cbn. repeat split; auto; try discriminate.
  intros H'; now elim H'.
Qed.

End Typing.

(* ================================================================== *)
(** * The slide viewer *)
(* ================================================================== *)

Section Navigation.
Import Infographic Viewer.

Lemma renderSlideContent_some (index : nat) :
  renderSlideContent index <> None <-> index < totalSlides.
Proof.
  unfold totalSlides.
  do 10 (destruct index as [|index]; [cbn; split; [lia | discriminate]|]).
  cbn. split; [intros H; now elim H | lia].
Qed.

Lemma navigate_in_range (click : Nav) (st : ViewerState) :
  currentSlide st < totalSlides ->
  currentSlide (navigate click st) < totalSlides.
Proof.
  unfold totalSlides. destruct click; cbn [navigate nextSlide prevSlide currentSlide];
    unfold totalSlides; lia.
Qed.

(** X12.  From the first slide, no run of clicks on the two navigation
    controls takes the viewer out of the ten slides: the current index
    stays below ten, so the viewer always has a template to show, never the
    empty default; and navigating never touches the download flag. *)
Theorem navigation_stays_on_a_slide (clicks : list Nav) :
  let st := navigate_all clicks mounted in
  currentSlide st < totalSlides
  /\ renderSlideContent (currentSlide st) <> None
  /\ isDownloading st = false.
Proof.
  cbv zeta. unfold navigate_all.
  assert (H : forall st,
             currentSlide st < totalSlides ->
             currentSlide (fold_left (fun s click => navigate click s) clicks st)
             < totalSlides
             /\ isDownloading (fold_left (fun s click => navigate click s) clicks st)
                = isDownloading st).
  { induction clicks as [|click clicks IH]; intros st Hst; [auto|].
    cbn [fold_left].
    destruct (IH (navigate click st) (navigate_in_range click st Hst))
      as [Hin Hflag].
    split; [exact Hin|]. rewrite Hflag. now destruct click. }
  destruct (H mounted) as [Hin Hflag]; [unfold totalSlides; cbn; lia|].
  repeat split; [exact Hin | now apply renderSlideContent_some | exact Hflag].
Qed.

(** X13.  Each navigation control is disabled exactly when its click would
    change nothing: going back leaves the state as it is just on the first
    slide, going forward just on the last.  Elsewhere within the deck the
    two undo each other. *)
Theorem navigation_ends_and_inverses (st : ViewerState) :
  (prevSlide st = st <-> prev_disabled st = true)
  /\ (nextSlide st = st <-> next_disabled st = true)
  /\ (currentSlide st < totalSlides ->
      (next_disabled st = false -> prevSlide (nextSlide st) = st)
      /\ (prev_disabled st = false -> nextSlide (prevSlide st) = st)).
Proof.
  destruct st as [n flag].
  unfold prev_disabled, next_disabled, prevSlide, nextSlide, totalSlides.
  cbn [currentSlide isDownloading].
  repeat split.
  - intros E. injection E as E. apply Nat.eqb_eq. lia.
  - intros E. apply Nat.eqb_eq in E. f_equal. lia.
  - intros E. injection E as E. apply Nat.eqb_eq. lia.
  - intros E. apply Nat.eqb_eq in E. f_equal. lia.
  - intros E. apply Nat.eqb_neq in E. f_equal. lia.
  - intros E. apply Nat.eqb_neq in E. f_equal. lia.
Qed.

Lemma navigation_ends_and_inverses_witness :
  prevSlide (nextSlide {| currentSlide := 3; isDownloading := false |})
  = {| currentSlide := 3; isDownloading := false |}.
Proof.
  refine (proj1 (proj2 (proj2 (navigation_ends_and_inverses
                                  {| currentSlide := 3; isDownloading := false |}))
                   _) eq_refl).
  unfold totalSlides. cbn. lia.
Defined.

End Navigation.

Section CutLists.
Import Infographic Viewer.

Lemma slice_from_zero {A : Type} (l : list A) (n : nat) :
  slice l 0 (Z.of_nat n) = firstn n l.
Proof.
  unfold slice. cbn [Z.ltb Z.compare].
  destruct (Z.of_nat n <? 0)%Z eqn:E; [apply Z.ltb_lt in E; lia|].
  replace (Z.min 0 (Z.of_nat (length l))) with 0%Z by lia.
  cbn [Z.to_nat skipn].
  destruct (Nat.le_ge_cases n (length l)) as [Hle|Hge].
  - replace (Z.to_nat (Z.max (Z.min (Z.of_nat n) (Z.of_nat (length l)) - 0) 0))
      with n by lia.
    reflexivity.
  - replace (Z.to_nat (Z.max (Z.min (Z.of_nat n) (Z.of_nat (length l)) - 0) 0))
      with (length l) by lia.
    now rewrite firstn_all, firstn_all2.
Qed.

Lemma slice_window {A : Type} (l : list A) (a n : nat) :
  slice l (Z.of_nat a) (Z.of_nat (a + n)) = firstn n (skipn a l).
Proof.
  unfold slice.
  destruct (Z.of_nat a <? 0)%Z eqn:E1; [apply Z.ltb_lt in E1; lia|].
  destruct (Z.of_nat (a + n) <? 0)%Z eqn:E2; [apply Z.ltb_lt in E2; lia|].
  set (len := length l).
  destruct (Nat.le_ge_cases len a) as [Hshort|Hlong].
  - replace (Z.to_nat (Z.min (Z.of_nat a) (Z.of_nat len))) with len by lia.
    subst len. rewrite skipn_all, (skipn_all2 l) by assumption.
    now rewrite !firstn_nil.
  - replace (Z.to_nat (Z.min (Z.of_nat a) (Z.of_nat len))) with a by lia.
    destruct (Nat.le_ge_cases (a + n) len) as [Hle|Hge].
    + replace (Z.to_nat
                 (Z.max (Z.min (Z.of_nat (a + n)) (Z.of_nat len)
                         - Z.min (Z.of_nat a) (Z.of_nat len)) 0))
        with n by lia.
      reflexivity.
    + replace (Z.to_nat
                 (Z.max (Z.min (Z.of_nat (a + n)) (Z.of_nat len)
                         - Z.min (Z.of_nat a) (Z.of_nat len)) 0))
        with (len - a) by lia.
      subst len.
      rewrite !firstn_all2; [reflexivity | rewrite length_skipn; lia
                            | rewrite length_skipn; lia].
Qed.

Lemma firstn_plus {A : Type} (a n : nat) (l : list A) :
  firstn a l ++ firstn n (skipn a l) = firstn (a + n) l.
Proof.
  revert l; induction a as [|a IH]; intros [|x l]; cbn;
    rewrite ?firstn_nil; try reflexivity.
  now rewrite IH.
Qed.

(** X14.  The two terminology slides share out the first four key concepts:
    the first shows concepts one and two, the second concepts three and
    four, so that together they show the first four in order, none twice
    and none skipped (fewer when the list is shorter).  When [keyConcepts]
    is missing or is not an array, neither slide renders: both throw. *)
Theorem concept_slides_share_first_four (data : JsValue) :
  match get_named data (lit "keyConcepts") with
  | Some (JArray concepts _) =>
      exists first second,
        concepts1_shown data = Ok first
        /\ concepts2_shown data = Ok second
        /\ first ++ second = firstn 4 concepts
        /\ first = firstn 2 concepts
        /\ length second <= 2
  | _ =>
      concepts1_shown data = Throw (not_an_array (lit "keyConcepts"))
      /\ concepts2_shown data = Throw (not_an_array (lit "keyConcepts"))
  end.
Proof.
  unfold concepts1_shown, concepts2_shown, items.
  destruct (get_named data (lit "keyConcepts")) as [[]|]; try (split; reflexivity).
  exists (firstn 2 elems), (firstn 2 (skipn 2 elems)).
  split; [now rewrite <- (slice_from_zero elems 2)|].
  split; [now rewrite <- (slice_window elems 2 2)|].
  split; [apply (firstn_plus 2 2)|].
  split; [reflexivity | apply firstn_le_length].
Qed.

(** X15.  The characters slide shows the first four characters and the
    themes slide the first three themes, in order, and never more, however
    many the document has; a document in which the list is missing or is not
    an array makes the slide throw instead of rendering. *)
Theorem characters_and_themes_are_capped (data : JsValue) :
  match get_named data (lit "characters") with
  | Some (JArray characters _) =>
      characters_shown data = Ok (firstn 4 characters)
      /\ length (firstn 4 characters) = Nat.min 4 (length characters)
  | _ => characters_shown data = Throw (not_an_array (lit "characters"))
  end
  /\ match get_named data (lit "themes") with
     | Some (JArray themes _) =>
         themes_shown data = Ok (firstn 3 themes)
         /\ length (firstn 3 themes) = Nat.min 3 (length themes)
     | _ => themes_shown data = Throw (not_an_array (lit "themes"))
     end.
Proof.
  unfold characters_shown, themes_shown, items. split.
  - destruct (get_named data (lit "characters")) as [[]|]; try reflexivity.
    split; [now rewrite <- (slice_from_zero elems 4) | apply length_firstn].
  - destruct (get_named data (lit "themes")) as [[]|]; try reflexivity.
    split; [now rewrite <- (slice_from_zero elems 3) | apply length_firstn].
Qed.

End CutLists.

(* ================================================================== *)
(** * More on the PDF export *)
(* ================================================================== *)

Section ExportTrace.
Import Infographic Viewer Pages.
Context {Slide : Type} (html2canvas : Slide -> result jsstring).

(** The loop writes pages and nothing else. *)
Lemma capture_from_pages_only (slides : list Slide) (i : nat) :
  every_page (trace (capture_from html2canvas i slides)).
Proof.
  revert i; induction slides as [|slide slides IH]; intros i; [constructor|].
  cbn [capture_from]. specialize (IH (S i)).
  destruct (html2canvas slide) as [img|e]; [|constructor].
  destruct (capture_from html2canvas (S i) slides) as [tr r].
  cbn [trace fst] in IH.
  destruct (0 <? i)%nat; cbn; repeat constructor; exact IH.
Qed.

Lemma count_pages_only (test : Event -> bool) (tr : list Event) :
  (forall ev, is_page ev = true -> test ev = false) ->
  every_page tr -> count test tr = 0.
Proof.
  intros Hdisjoint Hall. unfold count.
  induction Hall as [|ev tr Hev _ IH]; [reflexivity|].
  cbn [filter]. now rewrite (Hdisjoint _ Hev).
Qed.

Lemma count_app (test : Event -> bool) (tr tr' : list Event) :
  count test (tr ++ tr') = count test tr + count test tr'.
Proof. unfold count. now rewrite filter_app, length_app. Qed.

(** The pages of a loop in which every slide is rasterized. *)
Lemma capture_from_all (slides : list Slide) (images : list jsstring) (i : nat) :
  Forall2 (fun slide img => html2canvas slide = Ok img) slides images ->
  capture_from html2canvas i slides
  = (if (0 <? i)%nat
     then flat_map (fun img => [PdfAddPage; PdfAddImage img 297 167]) images
     else pages images,
     Ok tt).
Proof.
  intros Hall. revert i.
  induction Hall as [|slide img slides images Himg _ IH]; intros i.
  - now destruct (0 <? i)%nat.
  - cbn [capture_from]. rewrite Himg, (IH (S i)).
    destruct (0 <? i)%nat; reflexivity.
Qed.

(** The body of the [try], the [catch] and the [finally], from what the loop
    and the reading of the title give. *)
Lemma handleDownloadPdf_cases (slides : list Slide) (data : JsValue)
  (st : ViewerState) :
  let failed cause :=
    [ConsoleError (lit "Error generating PDF:") cause;
     WindowAlert (lit "Could not generate PDF. Please try again.")] in
  handleDownloadPdf html2canvas (Some slides) data st
  = (PdfNew 297 167
     :: trace (capture_from html2canvas 0 slides)
     ++ match outcome (capture_from html2canvas 0 slides), title_replaced data with
        | Ok _, Ok name => [PdfSave (name ++ filename_suffix)]
        | Ok _, Throw cause => failed cause
        | Throw cause, _ => failed cause
        end,
     {| currentSlide := currentSlide st; isDownloading := false |}).
Proof.
  cbv zeta. cbn [handleDownloadPdf]. f_equal.
  destruct (capture_from html2canvas 0 slides) as [tr [[]|cause]];
    cbn [trace fst outcome snd bind emit lift try_catch app].
  - destruct (title_replaced data) as [name|cause];
      cbn [trace fst outcome snd bind emit lift try_catch app];
      now rewrite <- ?app_assoc, ?app_nil_r.
  - now rewrite <- ?app_assoc, ?app_nil_r.
Qed.

Lemma count_added_pages (images : list jsstring) :
  count is_added_page (pages images) = length images - 1.
Proof.
  destruct images as [|first rest]; [reflexivity|].
  cbn [pages length Nat.sub]. rewrite Nat.sub_0_r.
  change (count is_added_page
            (flat_map (fun img => [PdfAddPage; PdfAddImage img 297 167]) rest)
          = length rest).
  induction rest as [|img rest IH]; [reflexivity|].
  cbn [flat_map length].
  change ([PdfAddPage; PdfAddImage img 297 167] ++ ?l)
    with ([PdfAddPage; PdfAddImage img 297 167] ++ l).
  rewrite count_app, IH. reflexivity.
Qed.

(** The trace of an export in which nothing fails. *)
Lemma handleDownloadPdf_all_rasterized (slides : list Slide)
  (images : list jsstring) (data : JsValue) (title : jsstring)
  (st : ViewerState) :
  Forall2 (fun slide img => html2canvas slide = Ok img) slides images ->
  get_named data (lit "title") = Some (JString title) ->
  fst (handleDownloadPdf html2canvas (Some slides) data st)
  = PdfNew 297 167
    :: pages images
    ++ [PdfSave (replace_ws_runs (lit "_") title ++ lit "_Presentation.pdf")].
Proof.
  intros Hall Htitle.
  rewrite handleDownloadPdf_cases. cbv zeta. cbn [fst].
  rewrite (capture_from_all _ _ 0 Hall). cbn [trace outcome fst snd Nat.ltb Nat.leb].
  unfold title_replaced. now rewrite Htitle.
Qed.

(** X16.  When every child of the print container is rasterized and the
    title of the document is a string, the export writes a document of the
    slide size, puts the images on its pages in the order of the children
    (the first on the starting page, each later one on a page added for it)
    and saves it once, last, under the name made from the title. *)
Theorem export_writes_pages_in_order (slides : list Slide)
  (images : list jsstring) (data : JsValue) (title : jsstring)
  (st : ViewerState) :
  Forall2 (fun slide img => html2canvas slide = Ok img) slides images ->
  get_named data (lit "title") = Some (JString title) ->
  fst (handleDownloadPdf html2canvas (Some slides) data st)
  = PdfNew 297 167
    :: pages images
    ++ [PdfSave (replace_ws_runs (lit "_") title ++ lit "_Presentation.pdf")]
  /\ count is_added_page
       (fst (handleDownloadPdf html2canvas (Some slides) data st))
     = length slides - 1.
Proof.
  intros Hall Htitle.
  rewrite (handleDownloadPdf_all_rasterized _ _ _ _ _ Hall Htitle).
  split; [reflexivity|].
  rewrite (Forall2_length Hall).
  change (PdfNew 297 167 :: ?l) with ([PdfNew 297 167] ++ l).
  rewrite !count_app, count_added_pages. cbn. lia.
Qed.

(** X17.  An export from a mounted container ends in one of two ways.
    Either one file is saved and there is no alert and no console entry; or
    no file is saved, the cause is logged once and one alert is shown, as
    the last thing the export does.  A failure never leaves a file. *)
Theorem export_saves_or_alerts (slides : list Slide) (data : JsValue)
  (st : ViewerState) :
  let tr := fst (handleDownloadPdf html2canvas (Some slides) data st) in
  (exists filename,
      Spec.saved_files tr = [filename]
      /\ count is_alert tr = 0 /\ count is_console_error tr = 0)
  \/ (Spec.saved_files tr = []
      /\ count is_alert tr = 1 /\ count is_console_error tr = 1
      /\ last tr (PdfNew 297 167)
         = WindowAlert (lit "Could not generate PDF. Please try again.")).
Proof.
  cbv zeta. rewrite handleDownloadPdf_cases. cbv zeta. cbn [fst].
  pose proof (capture_from_saves_nothing html2canvas slides 0) as Hsave.
  pose proof (capture_from_pages_only slides 0) as Hpages.
  assert (Halert : count is_alert (trace (capture_from html2canvas 0 slides)) = 0)
    by (apply count_pages_only; [now intros [] | exact Hpages]).
  assert (Hlog : count is_console_error
                   (trace (capture_from html2canvas 0 slides)) = 0)
    by (apply count_pages_only; [now intros [] | exact Hpages]).
  set (tr := trace (capture_from html2canvas 0 slides)) in *.
  assert (Hfailed : forall cause,
             let tail := [ConsoleError (lit "Error generating PDF:") cause;
                          WindowAlert (lit "Could not generate PDF. Please try again.")] in
             Spec.saved_files (PdfNew 297 167 :: tr ++ tail) = []
             /\ count is_alert (PdfNew 297 167 :: tr ++ tail) = 1
             /\ count is_console_error (PdfNew 297 167 :: tr ++ tail) = 1
             /\ last (PdfNew 297 167 :: tr ++ tail) (PdfNew 297 167)
                = WindowAlert (lit "Could not generate PDF. Please try again.")).
  { intros cause tail.
    change (PdfNew 297 167 :: tr ++ tail) with ([PdfNew 297 167] ++ tr ++ tail).
    rewrite !saved_files_app, !count_app, Hsave, Halert, Hlog.
    repeat split.
    rewrite app_assoc. subst tail.
    change [ConsoleError (lit "Error generating PDF:") cause;
            WindowAlert (lit "Could not generate PDF. Please try again.")]
      with ([ConsoleError (lit "Error generating PDF:") cause]
            ++ [WindowAlert (lit "Could not generate PDF. Please try again.")]).
    rewrite app_assoc. apply last_last. }
  destruct (outcome (capture_from html2canvas 0 slides)) as [[]|cause];
    [|right; apply Hfailed].
  destruct (title_replaced data) as [name|cause]; [|right; apply Hfailed].
  left. exists (name ++ filename_suffix).
  change (PdfNew 297 167 :: tr ++ [PdfSave (name ++ filename_suffix)])
    with ([PdfNew 297 167] ++ tr ++ [PdfSave (name ++ filename_suffix)]).
  rewrite !saved_files_app, !count_app, Hsave, Halert, Hlog.
  repeat split.
Qed.

(** X18.  The export does not depend on the viewer and hardly touches it:
    with no mounted container it does nothing at all and leaves the state
    as it is; otherwise what it writes is the same whichever slide is
    shown, the current slide stays, and the download flag is off again at
    the end, after a failure as after a success. *)
Theorem export_leaves_the_viewer (printContainer : option (list Slide))
  (data : JsValue) (st st' : ViewerState) :
  fst (handleDownloadPdf html2canvas printContainer data st)
  = fst (handleDownloadPdf html2canvas printContainer data st')
  /\ currentSlide (snd (handleDownloadPdf html2canvas printContainer data st))
     = currentSlide st
  /\ match printContainer with
     | None => handleDownloadPdf html2canvas None data st = ([], st)
     | Some _ =>
         isDownloading
           (snd (handleDownloadPdf html2canvas printContainer data st)) = false
     end.
Proof.
  destruct printContainer as [slides|]; [|repeat split].
  rewrite !handleDownloadPdf_cases. cbv zeta. repeat split.
Qed.

End ExportTrace.

Lemma export_writes_pages_in_order_witness :
  fst (Infographic.handleDownloadPdf
         (fun slide : nat => Ok (Js.lit "png"))
         (Some [0; 1; 2])
         (JObject [(lit "title", JString (lit "Moby Dick"))])
         Viewer.mounted)
  = [PdfNew 297 167;
     PdfAddImage (lit "png") 297 167;
     PdfAddPage; PdfAddImage (lit "png") 297 167;
     PdfAddPage; PdfAddImage (lit "png") 297 167;
     PdfSave (lit "Moby_Dick_Presentation.pdf")].
Proof.
  apply (proj1 (export_writes_pages_in_order
           (fun slide : nat => Ok (Js.lit "png"))
           [0; 1; 2] [lit "png"; lit "png"; lit "png"]
           (JObject [(lit "title", JString (lit "Moby Dick"))])
           (lit "Moby Dick") Viewer.mounted
           ltac:(repeat constructor) eq_refl)).
Defined.

Section PrintContainer.
Import Infographic Viewer Pages.

(** X19.  The element that carries the print reference has a single child,
    the fixed-width block that holds the ten slides.  The export loops over
    the children of that element, so it rasterizes that one block: when it
    succeeds, the saved document has one image on one page, and no page is
    ever added. *)
Theorem print_container_exports_one_page
  (html2canvas : Dom -> result jsstring) (data : JsValue) (st : ViewerState) :
  exists block,
    children printContainer = [block]
    /\ length (children block) = totalSlides
    /\ count is_added_page
         (fst (handleDownloadPdf html2canvas
                 (Some (children printContainer)) data st)) = 0
    /\ forall img title,
         html2canvas block = Ok img ->
         get_named data (lit "title") = Some (JString title) ->
         fst (handleDownloadPdf html2canvas
                (Some (children printContainer)) data st)
         = [PdfNew 297 167;
            PdfAddImage img 297 167;
            PdfSave (replace_ws_runs (lit "_") title ++ lit "_Presentation.pdf")].
Proof.
  eexists. split; [reflexivity|]. split; [reflexivity|]. split.
  - rewrite handleDownloadPdf_cases. cbv zeta. cbn [fst children printContainer].
    cbn [capture_from Nat.ltb Nat.leb].
    destruct (html2canvas _) as [img|cause]; [|reflexivity].
    cbn [bind lift emit ret trace outcome fst snd app].
    now destruct (title_replaced data).
  - intros img title Himg Htitle.
    apply (handleDownloadPdf_all_rasterized html2canvas _ [img] data title st);
      [repeat constructor; exact Himg | exact Htitle].
Qed.

End PrintContainer.

Lemma print_container_exports_one_page_witness :
  exists block,
    Viewer.children Viewer.printContainer = [block]
    /\ fst (Infographic.handleDownloadPdf (fun _ => Ok (lit "png"))
              (Some (Viewer.children Viewer.printContainer))
              (JObject [(lit "title", JString (lit "Moby Dick"))])
              Viewer.mounted)
       = [PdfNew 297 167; PdfAddImage (lit "png") 297 167;
          PdfSave (lit "Moby_Dick_Presentation.pdf")].
Proof.
  destruct (print_container_exports_one_page (fun _ => Ok (lit "png"))
              (JObject [(lit "title", JString (lit "Moby Dick"))])
              Viewer.mounted)
    as (block & Hchildren & _ & _ & Hexport).
  exists block. split; [exact Hchildren|].
  exact (Hexport (lit "png") (lit "Moby Dick") eq_refl eq_refl).
Defined.

Section StoredDocument.
Import GeminiService App Flow.

Lemma returned_document_has_sources {host : Host} (title author : jsstring)
  (doc : JsValue) :
  outcome (generateBookInfographic title author) = Ok doc -> has_sources doc.
Proof.
  intros Hok.
  destruct (generateBookInfographic_ok _ _ _ Hok)
    as (response & parsed & _ & _ & Hassign).
  exists (sources_of response). split; [exact (assign_sources_ok _ _ _ Hassign)|].
  apply Forall_forall. intros u Hin.
  unfold sources_of in Hin. now apply filter_truthy_in in Hin.
Qed.

Lemma stored_document_act (st : AppState) (action : Action) :
  (forall doc, data st = Some doc -> has_sources doc) ->
  forall doc, data (act st action) = Some doc -> has_sources doc.
Proof.
  intros Hst doc. unfold act.
  destruct (offered st action); [|apply Hst].
  destruct action as [name value|answering| |]; cbn [perform].
  - destruct name; apply Hst.
  - destruct (@handleConfirm_outcomes answering st)
      as [[_ E]|[(_ & _ & doc' & Hok & E)|(_ & _ & cause & _ & E)]];
      rewrite E; cbn [snd data]; try apply Hst.
    intros H; injection H as <-.
    exact (returned_document_has_sources _ _ _ Hok).
  - discriminate.
  - apply Hst.
Qed.

(** X20.  Whatever the user does, a document that is stored in the view
    state came from the service and carries, under [sources], an array of
    non-empty strings: the conclusion slide can always take its length, and
    a first element, when there is one, is a non-empty string. *)
Theorem stored_document_has_sources (actions : list Action) (doc : JsValue) :
  data (session actions) = Some doc ->
  exists uris : list jsstring,
    get_named doc (lit "sources") = Some (JArray (map JString uris) [])
    /\ Forall (fun u => u <> []) uris.
Proof.
  unfold session.
  assert (H : forall st,
             (forall d, data st = Some d -> has_sources d) ->
             forall d, data (fold_left act actions st) = Some d -> has_sources d).
  { induction actions as [|action actions IH]; intros st Hst; [exact Hst|].
    cbn [fold_left]. apply IH. now apply stored_document_act. }
  apply H. discriminate.
Qed.

End StoredDocument.

Lemma stored_document_has_sources_witness :
  exists uris : list jsstring,
    get_named
      (JObject [(lit "title", JString (lit "Dune"));
                (lit "sources",
                 JArray [JString (lit "https://a.example/x");
                         JString (lit "https://b.example/y")] [])])
      (lit "sources")
    = Some (JArray (map JString uris) [])
    /\ Forall (fun u => u <> []) uris.
Proof.
  apply (stored_document_has_sources
           [Flow.TypeInto App.NameTitle (lit "Dune");
            Flow.TypeInto App.NameAuthor (lit "Frank Herbert");
            Flow.Submit (Reference.host_answering (Ok Reference.grounded_answer))]).
  vm_compute. reflexivity.
Defined.

